(** * Weather data system: the normalization pipeline, the store and the
      query service

    A shallow embedding of [DataProcessingModule.py]
    ([WeatherDataProcessor.clean_and_transform_data] and
    [get_data_summary]), of [DataStorageModule.py]
    ([WeatherDatabase.store_data] and [get_record_count]), of
    [APIMODULE.py] (the median of
    [WeatherAPI.get_monthly_temperature_stats], [get_available_years],
    [get_weather_by_date], [get_weather_by_month], [get_data_summary] and
    the filters and the count of [get_weather_events_summary]) and of
    [MainORCHESTRATION.py]
    ([WeatherSystem.process_and_store_data_file]).

    A pandas [DataFrame] is a row count with an ordered list of named
    columns, a column is a list of dynamically typed cells, and the pandas
    column operations the source calls are modelled cell by cell.  A raised
    Python exception is the left injection of a sum.  The table
    [weather_data] is the list of its rows. *)

From Stdlib Require Import ZArith QArith Qround Ascii String List Permutation.
From stdpp Require Import base decidable option list sorting gmap strings pretty.

Local Open Scope string_scope.
Local Open Scope list_scope.
Local Open Scope Z_scope.

(** ** Python strings *)

Module PyStr.

(** [str.lower()], on the ASCII range. *)
Definition lower_ascii (c : ascii) : ascii :=
  let n := nat_of_ascii c in
  if (Nat.leb 65 n && Nat.leb n 90)%bool then ascii_of_nat (n + 32) else c.

Fixpoint lower (s : string) : string :=
  match s with
  | EmptyString => EmptyString
  | String c s' => String (lower_ascii c) (lower s')
  end.

(** [s.replace(c, '')] for a one-character pattern [c]. *)
Fixpoint remove_char (c : ascii) (s : string) : string :=
  match s with
  | EmptyString => EmptyString
  | String d s' =>
      if Ascii.eqb c d then remove_char c s' else String d (remove_char c s')
  end.

(** The characters [str.strip()] removes, on the ASCII range: space, tab,
    line feed, vertical tab, form feed, carriage return and the four
    separators 28..31. *)
Definition is_space (c : ascii) : bool :=
  let n := nat_of_ascii c in
  (Nat.eqb n 32 || (Nat.leb 9 n && Nat.leb n 13) || (Nat.leb 28 n && Nat.leb n 31))%bool.

Fixpoint lstrip (s : string) : string :=
  match s with
  | EmptyString => EmptyString
  | String c s' => if is_space c then lstrip s' else s
  end.

(** [rstrip] keeps a character when it is not a space or when something
    remains to its right. *)
Fixpoint rstrip (s : string) : string :=
  match s with
  | EmptyString => EmptyString
  | String c s' =>
      match rstrip s' with
      | EmptyString => if is_space c then EmptyString else String c EmptyString
      | r => String c r
      end
  end.

Definition strip (s : string) : string := rstrip (lstrip s).

End PyStr.

(** The key under which the processor compares column names:
    [col.lower().replace('_', '').replace(' ', '')]. *)
Definition normalize (col : string) : string :=
  PyStr.remove_char " " (PyStr.remove_char "_" (PyStr.lower col)).

(** The datetime variants are folded with [c.lower().replace('_', '')] only. *)
Definition normalize_variant (c : string) : string :=
  PyStr.remove_char "_" (PyStr.lower c).

(** ** Cells and exceptions *)

(** A cell of a column.  pandas has three missing values, which differ only
    in how they print; numbers are Python ints or floats (a float is a
    rational here); a timestamp is a count of nanoseconds since the epoch, a
    calendar date a count of days. *)
Inductive cell : Type :=
  | NaN
  | PyNone
  | NaT
  | Int (z : Z)
  | Float (q : Q)
  | Str (s : string)
  | Bool (b : bool)
  | Time (ns : Z)
  | Date (days : Z).

Inductive Exception : Type :=
  | ValueError (msg : string)
  | TypeError (msg : string)
  | AttributeError (msg : string)
  | KeyError (key : string)
  | InterfaceError (msg : string).

Definition result (A : Type) : Type := Exception + A.

Definition raise {A} (e : Exception) : result A := inl e.

Global Instance result_ret : MRet result := fun A a => inr a.
Global Instance result_bind : MBind result := fun A B k m =>
  match m with
  | inl e => inl e
  | inr a => k a
  end.

Global Instance result_fmap : FMap result := fun A B f m =>
  match m with
  | inl e => inl e
  | inr a => inr (f a)
  end.

(** [pd.isna] / [pd.notna] on one cell. *)
Definition isna (c : cell) : bool :=
  match c with
  | NaN | PyNone | NaT => true
  | _ => false
  end.

Definition notna (c : cell) : bool := negb (isna c).

(** ** Data frames *)

(** [len(df)] rows and the columns in declaration order.  In a frame that
    pandas can build every column has [nrows] cells ([wf_df]). *)
Record DataFrame : Type := mkDF {
  nrows : nat;
  columns : list (string * list cell)
}.

Definition column_names (df : DataFrame) : list string := (columns df).*1.

Definition wf_df (df : DataFrame) : Prop :=
  Forall (fun p => length p.2 = nrows df) (columns df).

Fixpoint assoc_get {A} (c : string) (l : list (string * A)) : option A :=
  match l with
  | [] => None
  | (c', v) :: l' => if decide (c = c') then Some v else assoc_get c l'
  end.

(** Assignment keeps the position of an existing column and appends a new
    one at the end. *)
Fixpoint assoc_set {A} (c : string) (v : A) (l : list (string * A))
  : list (string * A) :=
  match l with
  | [] => [(c, v)]
  | (c', v') :: l' =>
      if decide (c = c') then (c, v) :: l' else (c', v') :: assoc_set c v l'
  end.

Definition get_col (c : string) (df : DataFrame) : option (list cell) :=
  assoc_get c (columns df).

(** [c in df.columns] *)
Definition has_col (c : string) (df : DataFrame) : bool :=
  bool_decide (c ∈ column_names df).

(** [df[c]]: a [KeyError] when the column is missing. *)
Definition getitem (df : DataFrame) (c : string) : result (list cell) :=
  match get_col c df with
  | Some v => mret v
  | None => raise (KeyError c)
  end.

(** [df[c] = series] *)
Definition set_col (c : string) (v : list cell) (df : DataFrame) : DataFrame :=
  mkDF (nrows df) (assoc_set c v (columns df)).

(** [df[c] = scalar] *)
Definition set_scalar (c : string) (x : cell) (df : DataFrame) : DataFrame :=
  set_col c (replicate (nrows df) x) df.

(** ** What pandas and Python do with text

    Parsing and printing are library code; the pipeline is stated for any
    behaviour of them.  [py_datetime] is [pd.to_datetime(..., errors='coerce')]
    on one cell that is neither missing nor a timestamp already, [py_float]
    is what [pd.to_numeric(..., errors='coerce')] reads in a string,
    [py_int] is [int(s)], and [py_repr] is [str(x)] for a float, a timestamp
    or a date.  [None] is the failure to parse. *)
Class PyText : Type := {
  py_datetime : cell -> option Z;
  py_float : string -> option Q;
  py_int : string -> option Z;
  py_repr : cell -> string
}.

(** ** The calendar of the [.dt] accessors *)

Module Calendar.

Definition ns_per_hour : Z := 3600 * 1000000000.
Definition ns_per_day : Z := 24 * ns_per_hour.

Definition days_of (ns : Z) : Z := ns / ns_per_day.
Definition hour_of (ns : Z) : Z := (ns mod ns_per_day) / ns_per_hour.

(** Proleptic Gregorian date of a day count since 1970-01-01. *)
Definition civil (days : Z) : Z * Z * Z :=
  let z := days + 719468 in
  let era := z / 146097 in
  let doe := z - era * 146097 in
  let yoe := (doe - doe / 1460 + doe / 36524 - doe / 146096) / 365 in
  let doy := doe - (365 * yoe + yoe / 4 - yoe / 100) in
  let mp := (5 * doy + 2) / 153 in
  let d := doy - (153 * mp + 2) / 5 + 1 in
  let m := if mp <? 10 then mp + 3 else mp - 9 in
  let y := yoe + era * 400 + (if m <=? 2 then 1 else 0) in
  (y, m, d).

Definition year_of (ns : Z) : Z := (civil (days_of ns)).1.1.
Definition month_of (ns : Z) : Z := (civil (days_of ns)).1.2.
Definition day_of (ns : Z) : Z := (civil (days_of ns)).2.

Definition month_names : list string :=
  ["January"; "February"; "March"; "April"; "May"; "June"; "July";
   "August"; "September"; "October"; "November"; "December"].

Definition month_name_of (ns : Z) : string :=
  nth (Z.to_nat (month_of ns - 1)) month_names "".

Definition pad (width : nat) (z : Z) : string :=
  let s := pretty z in
  String.concat "" (replicate (width - String.length s) "0") +:+ s.

(** [str(date)] *)
Definition date_str (days : Z) : string :=
  let '(y, m, d) := civil days in
  pad 4 y +:+ "-" +:+ pad 2 m +:+ "-" +:+ pad 2 d.

(** [Timestamp.isoformat()], to the second. *)
Definition isoformat (ns : Z) : string :=
  let r := ns mod ns_per_day in
  date_str (days_of ns) +:+ "T" +:+ pad 2 (r / ns_per_hour) +:+ ":" +:+
  pad 2 ((r mod ns_per_hour) / 60000000000) +:+ ":" +:+
  pad 2 ((r mod 60000000000) / 1000000000).

End Calendar.

(** [series.dt.<field>]: missing where the timestamp is. *)
Definition dt_int (f : Z -> Z) (c : cell) : cell :=
  match c with
  | Time ns => Int (f ns)
  | _ => NaN
  end.

Definition dt_date (c : cell) : cell :=
  match c with
  | Time ns => Date (Calendar.days_of ns)
  | _ => NaT
  end.

Definition dt_month_name (c : cell) : cell :=
  match c with
  | Time ns => Str (Calendar.month_name_of ns)
  | _ => NaN
  end.

(** ** Column operations of pandas, cell by cell *)

Fixpoint mapM_result {A B} (f : A -> result B) (l : list A) : result (list B) :=
  match l with
  | [] => mret []
  | x :: l' => y ← f x; ys ← mapM_result f l'; mret (y :: ys)
  end.

(** A [for] loop whose body updates the frame or raises. *)
Fixpoint foldM_result {A B} (f : B -> A -> result B) (l : list A) (b : B) : result B :=
  match l with
  | [] => mret b
  | x :: l' => b' ← f b x; foldM_result f l' b'
  end.

(** [series.isna().sum()] and [series.notna().sum()] *)
Definition count_na (v : list cell) : nat := length (filter (fun c => isna c = true) v).
Definition count_valid (v : list cell) : nat := length (filter (fun c => notna c = true) v).

Section Pandas.
Context `{PyText}.

(** [pd.to_datetime(series, errors='coerce')] *)
Definition to_datetime (c : cell) : cell :=
  match c with
  | Time ns => Time ns
  | NaN | PyNone | NaT => NaT
  | _ => match py_datetime c with
         | Some ns => Time ns
         | None => NaT
         end
  end.

(** [pd.to_numeric(series, errors='coerce')] *)
Definition to_numeric (c : cell) : cell :=
  match c with
  | Int z => Int z
  | Float q => Float q
  | Bool b => Int (if b then 1 else 0)
  | Time ns => Int ns
  | Str s => match py_float s with
             | Some q => Float q
             | None => NaN
             end
  | _ => NaN
  end.

(** [series.astype(str)] *)
Definition astype_str (c : cell) : string :=
  match c with
  | Str s => s
  | NaN => "nan"
  | PyNone => "None"
  | NaT => "NaT"
  | Bool b => if b then "True" else "False"
  | Int z => pretty z
  | Date d => Calendar.date_str d
  | _ => py_repr c
  end.

(** [series.astype(str).str.strip()] *)
Definition strip_text (c : cell) : cell := Str (PyStr.strip (astype_str c)).

(** [series.replace(['nan', '', 'None'], None)]: the listed texts become
    [None]. *)
Definition blank_tokens : list string := ["nan"; ""; "None"].

Definition replace_blank (c : cell) : cell :=
  match c with
  | Str s => if bool_decide (s ∈ blank_tokens) then PyNone else c
  | _ => c
  end.

(** The two statements on a categorical column, on one cell. *)
Definition categorical (c : cell) : cell := replace_blank (strip_text c).

(** [series.fillna(0)] *)
Definition fillna0 (c : cell) : cell := if isna c then Int 0 else c.

(** Python's [int(x)] on a float truncates toward zero. *)
Definition truncate (q : Q) : Z := Z.quot (Qnum q) (Zpos (Qden q)).

(** [series.astype(int)] *)
Definition astype_int (c : cell) : result cell :=
  match c with
  | Int z => mret (Int z)
  | Float q => mret (Int (truncate q))
  | Bool b => mret (Int (if b then 1 else 0))
  | Str s => match py_int s with
             | Some z => mret (Int z)
             | None => raise (ValueError "invalid literal for int() with base 10")
             end
  | NaN | PyNone | NaT => raise (ValueError "cannot convert float NaN to integer")
  | Time _ | Date _ => raise (TypeError "int() argument must be a string or a number")
  end.

End Pandas.

(** [series.ffill()]: a missing cell takes the last valid cell before it,
    and stays as it is when there is none. *)
Fixpoint ffill_from (last : option cell) (v : list cell) : list cell :=
  match v with
  | [] => []
  | c :: v' =>
      if isna c then default c last :: ffill_from last v'
      else c :: ffill_from (Some c) v'
  end.

Definition ffill (v : list cell) : list cell := ffill_from None v.

(** [series.fillna(x)]; filling with a missing value changes nothing. *)
Definition fillna (x : cell) (v : list cell) : list cell :=
  if isna x then v else map (fun c => if isna c then x else c) v.

(** The order of floats. *)
Definition Qleb_rel (x y : Q) : Prop := Is_true (Qle_bool x y).

Global Instance Qleb_rel_dec : RelDecision Qleb_rel.
Proof. intros x y. unfold Qleb_rel. apply _. Defined.

(** The value a cell contributes to a numeric reduction. *)
Definition numeric_value (c : cell) : result Q :=
  match c with
  | Int z => mret (inject_Z z)
  | Float q => mret q
  | Bool b => mret (if b then 1%Q else 0%Q)
  | _ => raise (TypeError "could not convert to numeric")
  end.

(** Middle of a sorted list of floats: the middle value for an odd count,
    the mean of the two middle values for an even one.  The result of the
    arithmetic is kept in lowest terms, so that equal numbers are equal
    terms. *)
Definition middle (sorted : list Q) : Q :=
  let n := length sorted in
  if (n mod 2 =? 1)%nat then nth (n / 2) sorted 0%Q
  else Qred ((nth (n / 2 - 1) sorted 0 + nth (n / 2) sorted 0) / 2)%Q.

(** [series.median()]: missing cells are skipped, an empty selection gives
    [NaN]. *)
Definition median (v : list cell) : result cell :=
  xs ← mapM_result numeric_value (filter (fun c => notna c = true) v);
  match xs with
  | [] => mret NaN
  | _ => mret (Float (middle (merge_sort Qleb_rel xs)))
  end.

(** [df.dropna(subset=[c])] keeps the rows whose cell in [c] is valid. *)
Fixpoint filter_mask {A} (mask : list bool) (l : list A) : list A :=
  match mask, l with
  | b :: mask', x :: l' =>
      if b then x :: filter_mask mask' l' else filter_mask mask' l'
  | _, _ => []
  end.

Definition dropna_subset (c : string) (df : DataFrame) : result DataFrame :=
  v ← getitem df c;
  let mask := map notna v in
  mret (mkDF (count_valid v) (prod_map id (filter_mask mask) <$> columns df)).

(** [df.sort_values(c)] on a timestamp column: ascending, missing keys last.
    pandas leaves the order of rows with equal keys to its sorting
    algorithm; here they keep their previous order. *)
Definition key_leb (p q : cell * nat) : bool :=
  match p.1, q.1 with
  | Time a, Time b => (a <? b) || ((a =? b) && (p.2 <=? q.2)%nat)
  | Time _, _ => true
  | _, Time _ => false
  | _, _ => (p.2 <=? q.2)%nat
  end.

Definition key_le (p q : cell * nat) : Prop := Is_true (key_leb p q).

Global Instance key_le_dec : RelDecision key_le.
Proof. intros p q. unfold key_le. apply _. Defined.

Definition argsort (keys : list cell) : list nat :=
  (merge_sort key_le (zip keys (seq 0 (length keys)))).*2.

Definition take_rows (order : list nat) (v : list cell) : list cell :=
  (fun i => nth i v NaN) <$> order.

Definition sort_values (c : string) (df : DataFrame) : result DataFrame :=
  keys ← getitem df c;
  let order := argsort keys in
  mret (mkDF (nrows df) (prod_map id (take_rows order) <$> columns df)).

(** [df[dst] = f(df[src])] *)
Definition assign_from (src dst : string) (f : cell -> cell) (df : DataFrame)
  : result DataFrame :=
  v ← getitem df src;
  mret (set_col dst (f <$> v) df).

(** ** [WeatherDataProcessor.clean_and_transform_data] *)

Definition possible_datetime_cols : list string :=
  ["datetimeutc"; "datetime_utc"; "DateTimeUTC"; "DateTime"; "datetime"].

Definition is_datetime_name (col : string) : bool :=
  bool_decide (normalize col ∈ normalize_variant <$> possible_datetime_cols).

(** The loop over [processed_df.columns] that stops at the first match. *)
Definition find_datetime_col (names : list string) : option string :=
  find is_datetime_name names.

Definition numeric_columns : list (string * string) :=
  [("tempm", "temperature"); ("hum", "humidity"); ("pressurem", "pressure");
   ("heatindexm", "heat_index"); ("dewptm", "dew_point");
   ("precipm", "precipitation"); ("vism", "visibility");
   ("wdird", "wind_direction"); ("wspdm", "wind_speed");
   ("wgustm", "wind_gust"); ("windchillm", "wind_chill")].

Definition categorical_columns : list (string * string) :=
  [("conds", "weather_condition"); ("wdire", "wind_direction_text")].

Definition boolean_columns : list string :=
  ["fog"; "hail"; "rain"; "snow"; "thunder"; "tornado"].

Definition critical_columns : list string :=
  ["temperature"; "humidity"; "pressure"].

Definition other_numeric : list string :=
  ["heat_index"; "dew_point"; "precipitation"; "visibility";
   "wind_direction"; "wind_speed"; "wind_gust"; "wind_chill"].

(** The dict comprehension [{normalize(col): col for col in columns}]: a
    later column replaces an earlier one under the same key. *)
Definition col_mapping (names : list string) : gmap string string :=
  foldl (fun m col => <[normalize col := col]> m) ∅ names.

(** The resolution the specification describes: the first column, in
    declaration order, whose normalized name is the key. *)
Definition first_match (key : string) (names : list string) : option string :=
  find (fun col => bool_decide (normalize col = key)) names.

Definition event_name (col : string) : string := col +:+ "_event".

Definition SchemaError : Exception :=
  ValueError "Cannot find datetime column in the dataset".

Definition DataQualityError : Exception :=
  ValueError "No valid dates found after conversion".

Section Pipeline.
Context `{PyText}.

(** Lines 47-77: the datetime column, its validation, the time components. *)
Definition derive_temporal (df : DataFrame) : result DataFrame :=
  match find_datetime_col (column_names df) with
  | None => raise SchemaError
  | Some datetime_col =>
      df ← assign_from datetime_col "datetime_utc" to_datetime df;
      dt ← getitem df "datetime_utc";
      if (count_valid dt =? 0)%nat then raise DataQualityError
      else
        df ← assign_from "datetime_utc" "year" (dt_int Calendar.year_of) df;
        df ← assign_from "datetime_utc" "month" (dt_int Calendar.month_of) df;
        df ← assign_from "datetime_utc" "day" (dt_int Calendar.day_of) df;
        df ← assign_from "datetime_utc" "hour" (dt_int Calendar.hour_of) df;
        df ← assign_from "datetime_utc" "date" dt_date df;
        assign_from "datetime_utc" "month_name" dt_month_name df
  end.

(** Lines 98-106, one turn of the loop over [numeric_columns]. *)
Definition map_numeric (cm : gmap string string) (df : DataFrame)
    (entry : string * string) : result DataFrame :=
  match cm !! normalize entry.1 with
  | Some actual_col => assign_from actual_col entry.2 to_numeric df
  | None => mret df
  end.

(** Lines 114-122, one turn of the loop over [categorical_columns]. *)
Definition map_categorical (cm : gmap string string) (df : DataFrame)
    (entry : string * string) : result DataFrame :=
  match cm !! normalize entry.1 with
  | Some actual_col =>
      df ← assign_from actual_col entry.2 strip_text df;
      assign_from entry.2 entry.2 replace_blank df
  | None => mret df
  end.

(** Lines 126-135, one turn of the loop over [boolean_columns]. *)
Definition map_event (cm : gmap string string) (df : DataFrame)
    (col : string) : result DataFrame :=
  match cm !! PyStr.lower col with
  | Some actual_col =>
      v ← getitem df actual_col;
      flags ← mapM_result astype_int (fillna0 <$> v);
      mret (set_col (event_name col) flags df)
  | None => mret (set_scalar (event_name col) (Int 0) df)
  end.

(** Lines 146-151, one turn of the loop over [critical_columns]. *)
Definition impute_critical (df : DataFrame) (col : string) : result DataFrame :=
  if has_col col df then
    v ← getitem df col;
    if (0 <? count_na v)%nat then
      m ← median v;
      mret (set_col col (fillna m (ffill v)) df)
    else mret df
  else mret df.

(** Lines 156-161, one turn of the loop over [other_numeric]. *)
Definition impute_other (df : DataFrame) (col : string) : result DataFrame :=
  if has_col col df then
    v ← getitem df col;
    if (0 <? count_na v)%nat then
      m ← median v;
      mret (set_col col (fillna m v) df)
    else mret df
  else mret df.

Definition clean_and_transform_data (df : DataFrame) : result DataFrame :=
  df ← derive_temporal df;
  let cm := col_mapping (column_names df) in
  df ← foldM_result (map_numeric cm) numeric_columns df;
  df ← foldM_result (map_categorical cm) categorical_columns df;
  df ← foldM_result (map_event cm) boolean_columns df;
  df ← dropna_subset "datetime_utc" df;
  df ← foldM_result impute_critical critical_columns df;
  df ← foldM_result impute_other other_numeric df;
  sort_values "datetime_utc" df.

End Pipeline.

(** ** [WeatherDatabase.store_data] *)

(** A value SQLite stores. *)
Inductive sqlval : Type :=
  | SNull
  | SInteger (z : Z)
  | SReal (q : Q)
  | SText (s : string).

(** A row of the table [weather_data], by column name, without the
    [id] and [created_at] columns the database fills in itself. *)
Definition stored_row : Type := list (string * sqlval).

(** [row.get(key, default)] on row [i] of the frame. *)
Definition row_get (df : DataFrame) (i : nat) (key : string) (dflt : cell) : cell :=
  match get_col key df with
  | Some v => nth i v dflt
  | None => dflt
  end.

Definition plain_fields : list string :=
  ["year"; "month"; "day"; "hour"; "month_name";
   "temperature"; "humidity"; "pressure"; "heat_index"; "dew_point";
   "weather_condition"; "precipitation"; "visibility";
   "wind_direction"; "wind_direction_text"; "wind_speed"; "wind_gust";
   "wind_chill"].

Definition event_fields : list string :=
  ["fog_event"; "hail_event"; "rain_event"; "snow_event"; "thunder_event";
   "tornado_event"].


Section Store.
Context `{PyText}.

(** [x.isoformat()]: timestamps and dates have the method. *)
Definition isoformat_cell (c : cell) : result cell :=
  match c with
  | Time ns => mret (Str (Calendar.isoformat ns))
  | Date d => mret (Str (Calendar.date_str d))
  | _ => raise (AttributeError "isoformat")
  end.

(** The dict [record] built for row [i], keys in the order of the source. *)
Definition make_record (df : DataFrame) (i : nat) : result (list (string * cell)) :=
  let dt := row_get df i "datetime_utc" PyNone in
  datetime_utc ← (if notna dt then isoformat_cell dt else mret PyNone);
  let d := row_get df i "date" PyNone in
  let date := if notna d then Str (astype_str d) else PyNone in
  mret ([("datetime_utc", datetime_utc); ("date", date)]
        ++ ((fun k => (k, row_get df i k PyNone)) <$> plain_fields)
        ++ ((fun k => (k, row_get df i k (Int 0))) <$> event_fields)).

(** What [sqlite3] binds for a Python value. *)
Definition bind_param (c : cell) : result sqlval :=
  match c with
  | NaN | PyNone => mret SNull
  | Int z => mret (SInteger z)
  | Float q => mret (SReal q)
  | Str s => mret (SText s)
  | Bool b => mret (SInteger (if b then 1 else 0))
  | Date d => mret (SText (Calendar.date_str d))
  | NaT | Time _ => raise (InterfaceError "Error binding parameter")
  end.

(** The parameter tuple of the [INSERT], in the order of its column list. *)
Definition insert_columns : list string :=
  ["datetime_utc"; "date"; "year"; "month"; "day"; "hour"; "month_name";
   "temperature"; "humidity"; "pressure"; "heat_index"; "dew_point";
   "weather_condition"; "precipitation"; "visibility";
   "wind_direction"; "wind_direction_text"; "wind_speed"; "wind_gust";
   "wind_chill";
   "fog_event"; "hail_event"; "rain_event"; "snow_event"; "thunder_event";
   "tornado_event"].

(** [r[k]] as a parameter of the statement. *)
Definition record_param (r : list (string * cell)) (k : string) : result sqlval :=
  match assoc_get k r with
  | Some c => bind_param c
  | None => raise (KeyError k)
  end.

Definition insert_row (r : list (string * cell)) : result stored_row :=
  mapM_result (fun k => v ← record_param r k; mret (k, v)) insert_columns.

(** [store_data]: all records are built, then inserted and committed; an
    exception leaves the table as it was. *)
Definition store_data (table : list stored_row) (df : DataFrame)
  : result (list stored_row) :=
  records ← mapM_result (make_record df) (seq 0 (nrows df));
  rows ← mapM_result insert_row records;
  mret (table ++ rows).

End Store.

(** ** The median of [WeatherAPI.get_monthly_temperature_stats] *)

Definition sql_number (v : sqlval) : option Q :=
  match v with
  | SInteger z => Some (inject_Z z)
  | SReal q => Some q
  | _ => None
  end.

Definition sql_is (v : option sqlval) (n : Z) : bool :=
  match v ≫= sql_number with
  | Some q => Qeq_bool q (inject_Z n)
  | None => false
  end.



(** ** [WeatherSystem.process_and_store_data_file] *)

Record WeatherSystem : Type := mkSystem {
  processed_data : option DataFrame;
  weather_data : list stored_row
}.

(** [get_data_summary], without the date range. *)
Record Summary : Type := mkSummary {
  total_records : nat;
  summary_columns : list string;
  missing_values : list (string * nat)
}.

Definition get_data_summary (df : DataFrame) : Summary :=
  mkSummary (nrows df) (column_names df) (prod_map id count_na <$> columns df).

Section Orchestration.
Context `{PyText}.

(** The frame has been loaded; the state is the processor's last frame and
    the table. *)
Definition process_and_store_data_file (sys : WeatherSystem) (raw_data : DataFrame)
  : WeatherSystem * result Summary :=
  match clean_and_transform_data raw_data with
  | inl e => (sys, inl e)
  | inr processed =>
      let sys := mkSystem (Some processed) (weather_data sys) in
      match store_data (weather_data sys) processed with
      | inl e => (sys, inl e)
      | inr table => (mkSystem (Some processed) table, inr (get_data_summary processed))
      end
  end.

End Orchestration.

(** ** The imputation of a critical field, in the words of the specification *)

(** The numbers among the cells of a column. *)
Definition numeric_values (v : list cell) : list Q :=
  omap (fun c =>
    match c with
    | Int z => Some (inject_Z z)
    | Float q => Some q
    | Bool b => Some (if b then 1%Q else 0%Q)
    | _ => None
    end) v.

(** The median of the valid values of a column, if it has any. *)
Definition column_median (v : list cell) : option Q :=
  match numeric_values v with
  | [] => None
  | xs => Some (middle (merge_sort Qleb_rel xs))
  end.

(** The most recent valid cell before row [i]. *)
Definition carried (v : list cell) (i : nat) : option cell :=
  last (filter (fun c => notna c = true) (take i v)).

(** A valid cell stays; a null takes the most recent valid cell before it;
    with none before it, it takes the median of the valid values; with no
    valid value in the column it stays null. *)
Definition imputed_cell (v : list cell) (i : nat) (c : cell) : cell :=
  if notna c then c
  else match carried v i with
       | Some x => x
       | None => match column_median v with
                 | Some m => Float m
                 | None => c
                 end
       end.

Definition imputed (v : list cell) : list cell := imap (imputed_cell v) v.

(** The cells of a column on the rows whose timestamp parsed. *)
Definition surviving `{PyText} (raw_times : list cell) (v : list cell) : list cell :=
  filter_mask (notna <$> (to_datetime <$> raw_times)) v.


(** ** Predicates of the statements *)

Section vocabulary.
Context `{PyText}.

(** The timestamp a cell holds, if it holds one. *)
Definition key_rank (c : cell) : option Z :=
  match c with
  | Time ns => Some ns
  | _ => None
  end.

(** The timestamps of the rows that survive, in input order. *)
Definition valid_times (raw : list cell) : list Z :=
  omap (fun c => key_rank (to_datetime c)) raw.


(** The columns the imputer may fill. *)
Definition impute_targets : list string := critical_columns ++ other_numeric.

(** A cell a numeric reduction accepts. *)
Definition numeric_or_missing (c : cell) : Prop :=
  match c with
  | NaN | PyNone | NaT | Int _ | Float _ | Bool _ => True
  | _ => False
  end.





(** The keys the numeric, categorical and event loops look up. *)
Definition lookup_keys : list string :=
  ((fun e => normalize e.1) <$> numeric_columns)
  ++ ((fun e => normalize e.1) <$> categorical_columns)
  ++ (PyStr.lower <$> boolean_columns).

(** Text as the type coercer leaves it: null, or trimmed text that is none
    of the blank tokens. *)
Definition canonical_text (c : cell) : Prop :=
  c = PyNone \/ exists s, c = Str s /\ PyStr.strip s = s /\ s ∉ blank_tokens.









End vocabulary.

(** ** A concrete text behaviour, for running the pipeline

    Decimal integers with an optional minus sign are read as numbers;
    nothing else parses, and a number given as a timestamp is a count of
    nanoseconds. *)

Definition digit_of (c : ascii) : option Z :=
  let n := nat_of_ascii c in
  if (Nat.leb 48 n && Nat.leb n 57)%bool then Some (Z.of_nat (n - 48)) else None.

Fixpoint read_digits (acc : Z) (s : string) : option Z :=
  match s with
  | EmptyString => Some acc
  | String c s' => d ← digit_of c; read_digits (10 * acc + d) s'
  end.

Definition read_int (s : string) : option Z :=
  match s with
  | EmptyString => None
  | String "-" (String c s') => Z.opp <$> read_digits 0 (String c s')
  | _ => read_digits 0 s
  end.

Definition digits_text : PyText := {|
  py_datetime c := match c with Int ns => Some ns | _ => None end;
  py_float s := inject_Z <$> read_int s;
  py_int := read_int;
  py_repr _ := ""
|}.

(** Six hourly readings with gaps in the temperature. *)
Definition hour_ns (h : Z) : Z := h * Calendar.ns_per_hour.


(** Two columns that both fold to the key [tempm]. *)
Definition twice_frame : DataFrame :=
  mkDF 2
    [("DateTime", [Time (hour_ns 1); Time (hour_ns 2)]);
     ("tempm", [Float 1; Float 1]);
     ("TEMP_M", [Float 2; Float 2])].

(** No column carries a datetime name; the event column would not convert. *)
Definition nameless_frame : DataFrame :=
  mkDF 1 [("temp", [Float 1]); ("fog", [Str "yes"])].

(** The reading of hour 2 comes last in the file. *)
Definition late_row_frame : DataFrame :=
  mkDF 3
    [("datetime_utc", [Time (hour_ns 1); Time (hour_ns 3); Time (hour_ns 2)]);
     ("tempm", [Float 10; Float 30; NaN])].

(** Only timestamps, one of them unreadable. *)
Definition bare_frame : DataFrame :=
  mkDF 3 [("datetime", [Time (hour_ns 2); Str "n/a"; Time (hour_ns 1)])].




(** A canonical frame with most fields missing. *)
Definition sparse_frame : DataFrame :=
  mkDF 2
    [("datetime_utc", [Time (hour_ns 1); Time (hour_ns 2)]);
     ("temperature", [Float 21; NaN]);
     ("rain_event", [Int 1; Int 0])].

Definition empty_system : WeatherSystem := mkSystem None [].

(** What the pipeline returns on a frame, the empty frame if it raises. *)
Definition output_of (df : DataFrame) : DataFrame :=
  match clean_and_transform_data (H := digits_text) df with
  | inr out => out
  | inl _ => mkDF 0 []
  end.


(** ** The rows of the output, as rows of the raw frame *)

Section rows.
Context `{PyText}.

(** The rows that [dropna] keeps: the positions of the cells of the
    datetime column that parse, in file order. *)
Definition kept_rows (raw : list cell) : list nat :=
  filter_mask (notna <$> (to_datetime <$> raw)) (seq 0 (length raw)).

(** The raw row behind each output row: the kept rows, in the order in
    which [sort_values] leaves them. *)
Definition row_order (raw : list cell) : list nat :=
  (fun j => nth j (kept_rows raw) 0%nat) <$> argsort (Time <$> valid_times raw).

(** A column of the raw frame, read along the output rows. *)
Definition arranged (raw v : list cell) : list cell :=
  (fun i => nth i v NaN) <$> row_order raw.

(** A column of the surviving rows, in the order of the output. *)
Definition sorted_rows (raw w : list cell) : list cell :=
  take_rows (argsort (Time <$> valid_times raw)) w.

End rows.


(** Readings out of order, with a gap, a text that is no number and
    padded conditions. *)
Definition shuffled_frame : DataFrame :=
  mkDF 4
    [("Date Time", Time <$> (hour_ns <$> [3; 1; 4; 2]));
     ("Dew PtM", [Float 4; NaN; Str "-"; Float 8]);
     ("hum", [Float 50; NaN; Float 70; NaN]);
     ("Conds", [Str " Haze "; Str "nan"; NaN; Str "Fog"]);
     ("station", [Str "a"; Str "b"; Str "c"; Str "d"])].

Definition shuffled_out : DataFrame := Eval vm_compute in output_of shuffled_frame.

(** ** [WeatherDatabase.get_record_count] *)

(** [SELECT COUNT] over all rows of [weather_data]. *)
Definition get_record_count (table : list stored_row) : nat := length table.




(** The table after a frame is stored in it, unchanged if the store raises. *)
Definition stored_of (table : list stored_row) (df : DataFrame) : list stored_row :=
  match store_data (H := digits_text) table df with
  | inr table' => table'
  | inl _ => table
  end.

Definition sparse_stored : list stored_row := Eval vm_compute in stored_of [] sparse_frame.

(** ** SQLite values in the queries of [WeatherAPI] *)

Module Sql.

(** The value of a column in a row of the table. *)
Definition field (k : string) (r : stored_row) : sqlval :=
  default SNull (assoc_get k r).

(** [x IS NOT NULL] *)
Definition not_null (v : sqlval) : bool :=
  match v with
  | SNull => false
  | _ => true
  end.

(** The number of an INTEGER or a REAL. *)
Definition number (v : sqlval) : Q := default 0%Q (sql_number v).

(** The order of [ORDER BY], [MIN] and [MAX]: NULL first, then the numbers
    by their value, then the texts byte by byte. *)
Definition leb (a b : sqlval) : bool :=
  match a, b with
  | SNull, _ => true
  | _, SNull => false
  | SText s, SText t => String.leb s t
  | SText _, _ => false
  | _, SText _ => true
  | _, _ => Qle_bool (number a) (number b)
  end.

Definition le (a b : sqlval) : Prop := Is_true (leb a b).

Global Instance le_dec : RelDecision le.
Proof. intros a b. unfold le. apply _. Defined.

(** Strictly before. *)
Definition lt (a b : sqlval) : Prop := le a b /\ ~ le b a.

(** Two values that [DISTINCT] takes for one: neither is before the
    other. *)
Definition eqb (a b : sqlval) : bool := leb a b && leb b a.

(** [SELECT DISTINCT] over rows that are in order already: a value equal to
    an earlier one is left out. *)
Fixpoint distinct (l : list sqlval) : list sqlval :=
  match l with
  | [] => []
  | x :: l' => x :: filter (fun y => eqb x y = false) (distinct l')
  end.

(** [MIN(x)] and [MAX(x)]: NULLs are skipped, the first of equal values is
    kept, and the result is NULL when there is no value. *)
Definition min_step (best x : sqlval) : sqlval :=
  if not_null x then
    if not_null best then (if leb best x then best else x) else x
  else best.

Definition max_step (best x : sqlval) : sqlval :=
  if not_null x then
    if not_null best then (if leb x best then best else x) else x
  else best.

Definition min_of (l : list sqlval) : sqlval := foldl min_step SNull l.
Definition max_of (l : list sqlval) : sqlval := foldl max_step SNull l.

(** [ORDER BY k1, k2, ...]: the rows by their first key, rows that are
    equal in it by the next one.  SQLite does not fix the order of rows
    that are equal in every key; here they keep the order of the sort. *)
Fixpoint row_leb (keys : list string) (r1 r2 : stored_row) : bool :=
  match keys with
  | [] => true
  | k :: keys' =>
      if eqb (field k r1) (field k r2) then row_leb keys' r1 r2
      else leb (field k r1) (field k r2)
  end.

Definition row_le (keys : list string) (r1 r2 : stored_row) : Prop :=
  Is_true (row_leb keys r1 r2).

Global Instance row_le_dec keys : RelDecision (row_le keys).
Proof. intros r1 r2. unfold row_le. apply _. Defined.

Definition order_by (keys : list string) (table : list stored_row)
  : list stored_row :=
  merge_sort (row_le keys) table.

(** [COUNT(CASE WHEN k IS NOT NULL THEN 1 END)] *)
Definition count_not_null (k : string) (table : list stored_row) : nat :=
  length (filter (fun r => not_null (field k r) = true) table).

End Sql.

(** A filter that is given, as [if year:] tests it: not [None] and not 0. *)
Definition given (x : option Z) : option Z :=
  match x with
  | Some z => if z =? 0 then None else Some z
  | None => None
  end.

(** ** The queries of [WeatherAPI] *)

Module WeatherAPI.

(** [SELECT DISTINCT year FROM weather_data WHERE year IS NOT NULL
     ORDER BY year].  Which of several equal values SQLite returns is not
    fixed; here it is the first in the order. *)
Definition get_available_years (table : list stored_row) : list sqlval :=
  Sql.distinct
    (merge_sort Sql.le
       (filter (fun v => Sql.not_null v = true) (Sql.field "year" <$> table))).

Record DataSummary : Type := mkDataSummary {
  total_records : nat;
  year_start : sqlval;
  year_end : sqlval;
  temperature_records : nat;
  humidity_records : nat;
  pressure_records : nat
}.

(** The three queries of [get_data_summary]. *)
Definition get_data_summary (table : list stored_row) : DataSummary :=
  let years :=
    filter (fun v => Sql.not_null v = true) (Sql.field "year" <$> table) in
  mkDataSummary (length table) (Sql.min_of years) (Sql.max_of years)
    (Sql.count_not_null "temperature" table)
    (Sql.count_not_null "humidity" table)
    (Sql.count_not_null "pressure" table).

(** The columns that [get_weather_by_month] selects when a year is given. *)
Definition weather_columns : list string :=
  ["datetime_utc"; "weather_condition"; "temperature"; "humidity"; "pressure";
   "heat_index"; "dew_point"; "precipitation"; "visibility"; "wind_speed";
   "wind_direction"; "wind_direction_text"; "wind_gust"; "wind_chill";
   "fog_event"; "hail_event"; "rain_event"; "snow_event"; "thunder_event";
   "tornado_event"].

(** [dict(row)] for a row of a result with the given columns. *)
Definition record (columns : list string) (r : stored_row) : stored_row :=
  (fun k => (k, Sql.field k r)) <$> columns.

(** [get_weather_by_month]: with a year, the rows of the month and the
    year by timestamp; without one, the rows of the month in every year, by
    year and timestamp, with the year among the columns. *)
Definition get_weather_by_month (table : list stored_row) (month : Z)
    (year : option Z) : list stored_row :=
  match given year with
  | Some y =>
      record weather_columns <$>
        Sql.order_by ["datetime_utc"]
          (filter (fun r => sql_is (assoc_get "month" r) month
                            && sql_is (assoc_get "year" r) y = true) table)
  | None =>
      record ("datetime_utc" :: "year" :: tail weather_columns) <$>
        Sql.order_by ["year"; "datetime_utc"]
          (filter (fun r => sql_is (assoc_get "month" r) month = true) table)
  end.

(** [x = ?] for a text parameter. *)
Definition text_is (v : sqlval) (s : string) : bool :=
  match v with
  | SText t => String.eqb t s
  | _ => false
  end.

(** [get_weather_by_date]: the rows whose [date] is the target, or whose
    timestamp has the target as its [DATE()], by timestamp.  [sql_date]
    stands for the [DATE()] of SQLite. *)
Definition get_weather_by_date (sql_date : sqlval -> sqlval)
    (table : list stored_row) (target_date : string) : list stored_row :=
  record weather_columns <$>
    Sql.order_by ["datetime_utc"]
      (filter (fun r => text_is (Sql.field "date" r) target_date
                        || text_is (sql_date (Sql.field "datetime_utc" r)) target_date
                        = true) table).

(** [get_weather_events_summary]: the conditions and the parameters that
    the two [if]s collect.  [if year:] is false for [None] and for 0. *)
Definition add_condition (column : string) (x : option Z)
    (acc : list string * list Z) : list string * list Z :=
  match x with
  | Some z => if z =? 0 then acc else (acc.1 ++ [column +:+ " = ?"], acc.2 ++ [z])
  | None => acc
  end.

Definition events_conditions (year month : option Z) : list string * list Z :=
  add_condition "month" month (add_condition "year" year ([], [])).

(** ["WHERE " + " AND ".join(where_conditions) if where_conditions else ""] *)
Definition where_clause (where_conditions : list string) : string :=
  match where_conditions with
  | [] => ""
  | _ => "WHERE " +:+ String.concat " AND " where_conditions
  end.

(** A row that a condition [column = ?] selects for its parameter. *)
Definition condition_holds (r : stored_row) (condition : string) (param : Z) : bool :=
  match condition with
  | "year = ?" => sql_is (assoc_get "year" r) param
  | "month = ?" => sql_is (assoc_get "month" r) param
  | _ => false
  end.

Definition selected (conditions : list string * list Z) (r : stored_row) : bool :=
  forallb (fun p => condition_holds r p.1 p.2) (zip conditions.1 conditions.2).

(** The [COUNT] over all selected rows, [total_records] of the events
    summary. *)
Definition events_total_records (table : list stored_row) (year month : option Z)
  : nat :=
  length (filter (fun r => selected (events_conditions year month) r = true) table).

End WeatherAPI.


(** A [DATE()] for timestamps with four digits in the year: the text before
    the [T]. *)
Definition date_prefix (v : sqlval) : sqlval :=
  match v with
  | SText s => SText (substring 0 10 s)
  | _ => SNull
  end.


(** A timestamp of the year and the month asked for, as far as they are
    given. *)
Definition in_period (year month : option Z) (t : Z) : bool :=
  match given year with
  | Some y => Calendar.year_of t =? y
  | None => true
  end &&
  match given month with
  | Some m => Calendar.month_of t =? m
  | None => true
  end.

(** The valid cells that a frame has in a column, none without the
    column. *)
Definition present (k : string) (df : DataFrame) : nat :=
  match get_col k df with
  | Some v => count_valid v
  | None => 0
  end.

(** Two stores into one table: years out of order, one of them twice. *)
Definition years_table : list stored_row :=
  [[("year", SInteger 2011); ("temperature", SReal 30)];
   [("year", SNull); ("temperature", SNull)];
   [("year", SInteger 2009); ("temperature", SNull)];
   [("year", SInteger 2011); ("temperature", SReal 12)]].

Definition shuffled_rows : list stored_row :=
  Eval vm_compute in stored_of [] shuffled_out.

(** The system after the readings out of order have been processed. *)
Definition shuffled_system : WeatherSystem := mkSystem (Some shuffled_out) shuffled_rows.

(** * Properties *)

(** ** The result monad *)

Lemma bind_inr {A B} (m : result A) (k : A -> result B) (b : B) :
  m ≫= k = inr b -> exists a, m = inr a /\ k a = inr b.
Proof. destruct m as [e|a]; [discriminate|]. intros Hk. by exists a. Qed.

Lemma bind_inr_intro {A B} (m : result A) (k : A -> result B) (a : A) :
  m = inr a -> m ≫= k = k a.
Proof. by intros ->. Qed.

Tactic Notation "inv_bind" hyp(H) "as" ident(a) ident(Ha) :=
  apply bind_inr in H as (a & Ha & H).

Lemma mapM_result_length {A B} (f : A -> result B) l ys :
  mapM_result f l = inr ys -> length ys = length l.
Proof.
  revert ys. induction l as [|x l IH]; intros ys Hm; simpl in Hm.
  - by injection Hm as <-.
  - inv_bind Hm as y Hy. inv_bind Hm as zs Hzs. injection Hm as <-.
    simpl. f_equal. by apply IH.
Qed.

Lemma mapM_result_Forall2 {A B} (f : A -> result B) l ys :
  mapM_result f l = inr ys <-> Forall2 (fun x y => f x = inr y) l ys.
Proof.
  revert ys. induction l as [|x l IH]; intros ys; simpl.
  - split.
    + intros Hm. injection Hm as <-. constructor.
    + intros Hf. by inversion Hf.
  - split.
    + intros Hm. inv_bind Hm as y Hy. inv_bind Hm as zs Hzs. injection Hm as <-.
      constructor; [done|]. by apply IH.
    + intros Hf. inversion Hf as [|? y ? ys' Hy Hys]; subst.
      rewrite Hy. simpl. apply IH in Hys. rewrite Hys. done.
Qed.


(** ** Columns of a frame *)

Section assoc.
Context {A : Type}.
Implicit Types (l : list (string * A)) (c : string) (v : A).

Lemma assoc_get_set_eq c v l : assoc_get c (assoc_set c v l) = Some v.
Proof.
  induction l as [|[c' v'] l IH]; simpl.
  - by rewrite decide_True.
  - destruct (decide (c = c')) as [->|Hne]; simpl.
    + by rewrite decide_True.
    + by rewrite decide_False.
Qed.

Lemma assoc_get_set_ne c c' v l :
  c <> c' -> assoc_get c' (assoc_set c v l) = assoc_get c' l.
Proof.
  intros Hne. induction l as [|[d w] l IH]; simpl.
  - by rewrite decide_False.
  - destruct (decide (c = d)) as [->|Hd]; simpl.
    + by rewrite !decide_False.
    + destruct (decide (c' = d)); [done|apply IH].
Qed.

Lemma assoc_get_Some_elem c v l : assoc_get c l = Some v -> (c, v) ∈ l.
Proof.
  induction l as [|[d w] l IH]; simpl; [done|].
  destruct (decide (c = d)) as [->|Hd].
  - intros [= ->]. left.
  - intros Hg. right. by apply IH.
Qed.

Lemma assoc_get_is_Some c l : is_Some (assoc_get c l) <-> c ∈ l.*1.
Proof.
  induction l as [|[d w] l IH]; simpl.
  - split; [by intros [? ?]|by intros ?%elem_of_nil].
  - destruct (decide (c = d)) as [->|Hd].
    + split; [left|by eexists].
    + rewrite IH. split; [by right|].
      intros Hin. apply elem_of_cons in Hin as [?|?]; [done|done].
Qed.

Lemma assoc_get_None c l : assoc_get c l = None <-> c ∉ l.*1.
Proof. rewrite <- assoc_get_is_Some, eq_None_not_Some. done. Qed.

Lemma assoc_set_elem c v d w l :
  (d, w) ∈ assoc_set c v l -> (d, w) = (c, v) \/ (d, w) ∈ l.
Proof.
  induction l as [|[d' w'] l IH]; simpl.
  - intros Hin%list_elem_of_singleton. by left.
  - destruct (decide (c = d')) as [->|Hd]; intros Hin.
    + apply elem_of_cons in Hin as [?|?]; [by left|right; by right].
    + apply elem_of_cons in Hin as [Heq|Hin]; [right; rewrite Heq; left|].
      destruct (IH Hin); [by left|right; by right].
Qed.

End assoc.

Lemma get_set_col_eq c v df : get_col c (set_col c v df) = Some v.
Proof. apply assoc_get_set_eq. Qed.

Lemma get_set_col_ne c c' v df :
  c <> c' -> get_col c' (set_col c v df) = get_col c' df.
Proof. apply assoc_get_set_ne. Qed.

Lemma get_col_is_Some c df : is_Some (get_col c df) <-> c ∈ column_names df.
Proof. apply assoc_get_is_Some. Qed.

Lemma get_col_None c df : get_col c df = None <-> c ∉ column_names df.
Proof. apply assoc_get_None. Qed.

Lemma has_col_true c df : has_col c df = true <-> is_Some (get_col c df).
Proof. unfold has_col. rewrite bool_decide_eq_true. symmetry. apply get_col_is_Some. Qed.

Lemma wf_get_col df c v : wf_df df -> get_col c df = Some v -> length v = nrows df.
Proof.
  intros Hwf Hg. apply assoc_get_Some_elem in Hg.
  unfold wf_df in Hwf. rewrite Forall_forall in Hwf. by apply (Hwf (c, v)).
Qed.

Lemma wf_set_col df c v : wf_df df -> length v = nrows df -> wf_df (set_col c v df).
Proof.
  intros Hwf Hlen. unfold wf_df in *. rewrite Forall_forall in *.
  intros [d w] Hin. simpl in *. apply assoc_set_elem in Hin as [[= -> ->]|Hin]; [done|].
  by apply (Hwf (d, w)).
Qed.

Lemma getitem_inr df c v : getitem df c = inr v <-> get_col c df = Some v.
Proof.
  unfold getitem. destruct (get_col c df); split; intros Heq; try discriminate.
  - by injection Heq as ->.
  - by injection Heq as ->.
Qed.

(** A stretch of the pipeline that assigns to the columns [W] only: the
    rows, the other columns and the existing names stay. *)
Record evolves (W : list string) (df df' : DataFrame) : Prop := mkEvolves {
  ev_nrows : nrows df' = nrows df;
  ev_wf : wf_df df -> wf_df df';
  ev_frame : forall c, c ∉ W -> get_col c df' = get_col c df;
  ev_added : exists extra, column_names df' = column_names df ++ extra /\
               forall c, c ∈ extra -> c ∈ W
}.

Lemma evolves_refl W df : evolves W df df.
Proof.
  split; try done. exists []. split; [by rewrite app_nil_r|].
  by intros c ?%elem_of_nil.
Qed.

Lemma evolves_trans W df1 df2 df3 :
  evolves W df1 df2 -> evolves W df2 df3 -> evolves W df1 df3.
Proof.
  intros [n1 w1 f1 (e1 & m1 & s1)] [n2 w2 f2 (e2 & m2 & s2)]. split.
  - congruence.
  - auto.
  - intros c Hc. rewrite f2, f1; done.
  - exists (e1 ++ e2). split; [by rewrite m2, m1, app_assoc|].
    intros c [?|?]%elem_of_app; auto.
Qed.

Lemma evolves_weaken W W' df df' :
  (forall c, c ∈ W -> c ∈ W') -> evolves W df df' -> evolves W' df df'.
Proof.
  intros Hsub [n w f (e & m & s)]. split; auto.
  exists e. split; auto.
Qed.

Lemma assoc_set_names_app {A} c (v : A) (l : list (string * A)) :
  (assoc_set c v l).*1 = l.*1 ++ (if decide (c ∈ l.*1) then [] else [c]).
Proof.
  induction l as [|[d w] l IH]; csimpl.
  - done.
  - destruct (decide (c = d)) as [->|Hne]; csimpl.
    + rewrite decide_True by left. by rewrite app_nil_r.
    + rewrite IH. f_equal. f_equal.
      destruct (decide (c ∈ l.*1)) as [Hin|Hnin].
      * rewrite decide_True; [done|]. by right.
      * rewrite decide_False; [done|]. intros [?|?]%elem_of_cons; done.
Qed.

Lemma evolves_set_col c v df :
  (wf_df df -> length v = nrows df) -> evolves [c] df (set_col c v df).
Proof.
  intros Hlen. split.
  - done.
  - intros Hwf. apply wf_set_col; auto.
  - intros d Hd. apply get_set_col_ne. intros ->. apply Hd. left.
  - unfold column_names, set_col. simpl. rewrite assoc_set_names_app.
    eexists. split; [done|]. intros d. case_decide.
    + by intros ?%elem_of_nil.
    + done.
Qed.

Lemma foldM_evolves {A} (f : DataFrame -> A -> result DataFrame)
    (tgt : A -> string) l df df' :
  (forall d x d', f d x = inr d' -> evolves [tgt x] d d') ->
  foldM_result f l df = inr df' -> evolves (tgt <$> l) df df'.
Proof.
  intros Hstep. revert df. induction l as [|x l IH]; intros df Hf; simpl in Hf.
  - injection Hf as <-. apply evolves_refl.
  - inv_bind Hf as d Hd. apply evolves_trans with d.
    + eapply evolves_weaken; [|by apply Hstep].
      intros c Hc%list_elem_of_singleton. subst. simpl. left.
    + eapply evolves_weaken; [|by apply IH].
      intros c Hc. simpl. by right.
Qed.

(** What a loop leaves in the column of each of its turns.  Turn [x] writes
    [tgt x] and may read [rd x]; [R x n src old new] relates, for a frame
    of [n] rows, the column read, the target before and the target
    after. *)
Section loop_columns.
Context {A : Type} (f : DataFrame -> A -> result DataFrame).
Context (tgt : A -> string) (rd : A -> option string).
Context (R : A -> nat -> option (list cell) -> option (list cell)
             -> option (list cell) -> Prop).
Context (C : A -> nat -> option (list cell) -> option (list cell) -> Prop).
Implicit Types (l : list A) (x y : A).

Definition read_col (df : DataFrame) (x : A) : option (list cell) :=
  a ← rd x; get_col a df.

Hypothesis step_evolves : forall d x d', f d x = inr d' -> evolves [tgt x] d d'.
Hypothesis step_result : forall d x d', f d x = inr d' ->
  R x (nrows d) (read_col d x) (get_col (tgt x) d) (get_col (tgt x) d').
Hypothesis step_total : forall d x,
  C x (nrows d) (read_col d x) (get_col (tgt x) d) -> exists d', f d x = inr d'.

Lemma read_col_frame W d d' x l :
  evolves W d d' -> x ∈ l ->
  (forall y a, y ∈ l -> rd y = Some a -> a ∉ W) ->
  read_col d' x = read_col d x.
Proof.
  intros Hev Hx Hdisj. unfold read_col. destruct (rd x) as [a|] eqn:Hrd; simpl; [|done].
  apply (ev_frame _ _ _ Hev). by eapply Hdisj.
Qed.

Lemma foldM_columns l df df' :
  foldM_result f l df = inr df' ->
  NoDup (tgt <$> l) ->
  (forall x a, x ∈ l -> rd x = Some a -> a ∉ tgt <$> l) ->
  forall x, x ∈ l ->
    R x (nrows df) (read_col df x) (get_col (tgt x) df) (get_col (tgt x) df').
Proof.
  revert df. induction l as [|x0 l IH]; intros df Hf Hnd Hdisj x Hx.
  { by apply elem_of_nil in Hx. }
  simpl in Hf. inv_bind Hf as d Hd.
  simpl in Hnd. apply NoDup_cons in Hnd as [Hx0 Hnd].
  pose proof (step_evolves _ _ _ Hd) as Hev0.
  pose proof (foldM_evolves f tgt l d df' step_evolves Hf) as Hev.
  assert (Hdisj' : forall y a, y ∈ l -> rd y = Some a -> a ∉ tgt <$> l).
  { intros y a Hy Ha Hin. apply (Hdisj y a); [by right|done|]. simpl. by right. }
  apply elem_of_cons in Hx as [->|Hx].
  - rewrite (ev_frame _ _ _ Hev (tgt x0) Hx0). by apply step_result.
  - specialize (IH d Hf Hnd Hdisj' x Hx).
    assert (Hne : tgt x <> tgt x0).
    { intros Heq. apply Hx0. rewrite <- Heq. apply list_elem_of_fmap. eauto. }
    rewrite (ev_nrows _ _ _ Hev0) in IH.
    rewrite (ev_frame _ _ _ Hev0 (tgt x)) in IH
      by (intros Hc%list_elem_of_singleton; done).
    assert (Hrd : read_col d x = read_col df x).
    { apply (read_col_frame [tgt x0] df d x (x0 :: l) Hev0); [by right|].
      intros y a Hy Ha Hin%list_elem_of_singleton. subst a.
      apply (Hdisj y (tgt x0) Hy Ha). simpl. left. }
    by rewrite Hrd in IH.
Qed.


End loop_columns.

(** ** The turns of the loops *)

Lemma length_ffill_from last v : length (ffill_from last v) = length v.
Proof.
  revert last. induction v as [|c v IH]; intros last; simpl; [done|].
  destruct (isna c); simpl; by rewrite IH.
Qed.

Lemma length_fillna x v : length (fillna x v) = length v.
Proof. unfold fillna. destruct (isna x); [done|]. by rewrite length_map. Qed.

Lemma set_col_twice c v w df : set_col c w (set_col c v df) = set_col c w df.
Proof.
  unfold set_col. simpl. f_equal.
  induction (columns df) as [|[d u] l IH]; simpl.
  - by rewrite decide_True.
  - destruct (decide (c = d)) as [->|Hne]; simpl.
    + by rewrite decide_True.
    + rewrite decide_False by done. by rewrite IH.
Qed.

Section steps.
Context `{PyText}.

Lemma assign_from_Some src dst f df v :
  get_col src df = Some v ->
  assign_from src dst f df = inr (set_col dst (f <$> v) df).
Proof. intros Hg. unfold assign_from, getitem. by rewrite Hg. Qed.

Lemma assign_from_inr src dst f df df' :
  assign_from src dst f df = inr df' ->
  exists v, get_col src df = Some v /\ df' = set_col dst (f <$> v) df.
Proof.
  unfold assign_from. intros Ha. inv_bind Ha as v Hv.
  apply getitem_inr in Hv. injection Ha as <-. eauto.
Qed.

Lemma assign_from_evolves src dst f df df' :
  assign_from src dst f df = inr df' -> evolves [dst] df df'.
Proof.
  intros (v & Hv & ->)%assign_from_inr. apply evolves_set_col.
  intros Hwf. rewrite length_fmap. by eapply wf_get_col.
Qed.

Context (cm : gmap string string).

(** *** Numeric fields *)

Definition numeric_rd (e : string * string) : option string := cm !! normalize e.1.

Definition numeric_R (e : string * string) (n : nat)
    (src old new : option (list cell)) : Prop :=
  match numeric_rd e with
  | Some _ => exists va, src = Some va /\ new = Some (to_numeric <$> va)
  | None => new = old
  end.


Lemma map_numeric_evolves d e d' :
  map_numeric cm d e = inr d' -> evolves [e.2] d d'.
Proof.
  unfold map_numeric. destruct (cm !! normalize e.1).
  - apply assign_from_evolves.
  - intros [= <-]. apply evolves_refl.
Qed.

Lemma map_numeric_result d e d' :
  map_numeric cm d e = inr d' ->
  numeric_R e (nrows d) (read_col numeric_rd d e) (get_col e.2 d) (get_col e.2 d').
Proof.
  unfold map_numeric, numeric_R, read_col, numeric_rd.
  destruct (cm !! normalize e.1) as [a|]; simpl.
  - intros (v & Hv & ->)%assign_from_inr. exists v. by rewrite get_set_col_eq.
  - by intros [= <-].
Qed.


(** *** Categorical fields *)


Lemma map_categorical_inr d e d' a :
  cm !! normalize e.1 = Some a ->
  map_categorical cm d e = inr d' ->
  exists va, get_col a d = Some va /\ d' = set_col e.2 (categorical <$> va) d.
Proof.
  unfold map_categorical. intros ->. intros Hm. inv_bind Hm as d1 Hd1.
  apply assign_from_inr in Hd1 as (va & Hva & ->).
  apply assign_from_inr in Hm as (vb & Hvb & ->).
  rewrite get_set_col_eq in Hvb. injection Hvb as <-.
  exists va. split; [done|]. rewrite set_col_twice. f_equal.
  rewrite <- list_fmap_compose. done.
Qed.

Lemma map_categorical_evolves d e d' :
  map_categorical cm d e = inr d' -> evolves [e.2] d d'.
Proof.
  destruct (cm !! normalize e.1) as [a|] eqn:Hcm.
  - intros (va & Hva & ->)%(map_categorical_inr _ _ _ a); [|done].
    apply evolves_set_col. intros Hwf. rewrite length_fmap. by eapply wf_get_col.
  - unfold map_categorical. rewrite Hcm. intros [= <-]. apply evolves_refl.
Qed.



(** *** Event flags *)

Definition event_rd (col : string) : option string := cm !! PyStr.lower col.

Definition event_R (col : string) (n : nat)
    (src old new : option (list cell)) : Prop :=
  match event_rd col with
  | Some _ => exists va flags, src = Some va /\
       mapM_result astype_int (fillna0 <$> va) = inr flags /\ new = Some flags
  | None => new = Some (replicate n (Int 0))
  end.


Lemma map_event_evolves d col d' :
  map_event cm d col = inr d' -> evolves [event_name col] d d'.
Proof.
  unfold map_event. destruct (cm !! PyStr.lower col) as [a|].
  - intros Hm. inv_bind Hm as v Hv. inv_bind Hm as flags Hflags.
    injection Hm as <-. apply getitem_inr in Hv.
    apply evolves_set_col. intros Hwf.
    apply mapM_result_length in Hflags. rewrite Hflags, length_fmap.
    by eapply wf_get_col.
  - intros [= <-]. apply evolves_set_col. intros _. apply length_replicate.
Qed.

Lemma map_event_result d col d' :
  map_event cm d col = inr d' ->
  event_R col (nrows d) (read_col event_rd d col)
    (get_col (event_name col) d) (get_col (event_name col) d').
Proof.
  unfold map_event, event_R, read_col, event_rd.
  destruct (cm !! PyStr.lower col) as [a|]; simpl.
  - intros Hm. inv_bind Hm as v Hv. inv_bind Hm as flags Hflags.
    injection Hm as <-. apply getitem_inr in Hv.
    exists v, flags. by rewrite get_set_col_eq.
  - intros [= <-]. unfold set_scalar. by rewrite get_set_col_eq.
Qed.


End steps.

(** *** Imputation *)





Lemma has_col_false c df : has_col c df = false <-> get_col c df = None.
Proof.
  rewrite <- not_true_iff_false, has_col_true, eq_None_not_Some. done.
Qed.

Lemma impute_critical_cases df col :
  match get_col col df with
  | None => impute_critical df col = inr df
  | Some v =>
      if (0 <? count_na v)%nat
      then impute_critical df col =
           (m ← median v; mret (set_col col (fillna m (ffill v)) df))
      else impute_critical df col = inr df
  end.
Proof.
  unfold impute_critical. destruct (get_col col df) as [v|] eqn:Hg.
  - assert (Hh : has_col col df = true) by (apply has_col_true; by rewrite Hg).
    rewrite Hh. unfold getitem. rewrite Hg. simpl.
    by destruct (0 <? count_na v)%nat.
  - apply has_col_false in Hg. by rewrite Hg.
Qed.

Lemma impute_other_cases df col :
  match get_col col df with
  | None => impute_other df col = inr df
  | Some v =>
      if (0 <? count_na v)%nat
      then impute_other df col = (m ← median v; mret (set_col col (fillna m v) df))
      else impute_other df col = inr df
  end.
Proof.
  unfold impute_other. destruct (get_col col df) as [v|] eqn:Hg.
  - assert (Hh : has_col col df = true) by (apply has_col_true; by rewrite Hg).
    rewrite Hh. unfold getitem. rewrite Hg. simpl.
    by destruct (0 <? count_na v)%nat.
  - apply has_col_false in Hg. by rewrite Hg.
Qed.

Lemma impute_critical_evolves d col d' :
  impute_critical d col = inr d' -> evolves [col] d d'.
Proof.
  pose proof (impute_critical_cases d col) as Hc.
  destruct (get_col col d) as [v|] eqn:Hg.
  - destruct (0 <? count_na v)%nat; rewrite Hc.
    + intros Hm. inv_bind Hm as m Hmed. injection Hm as <-.
      apply evolves_set_col. intros Hwf.
      rewrite length_fillna. unfold ffill. rewrite length_ffill_from.
      by eapply wf_get_col.
    + intros [= <-]. apply evolves_refl.
  - rewrite Hc. intros [= <-]. apply evolves_refl.
Qed.



Lemma impute_other_evolves d col d' :
  impute_other d col = inr d' -> evolves [col] d d'.
Proof.
  pose proof (impute_other_cases d col) as Hc.
  destruct (get_col col d) as [v|] eqn:Hg.
  - destruct (0 <? count_na v)%nat; rewrite Hc.
    + intros Hm. inv_bind Hm as m Hmed. injection Hm as <-.
      apply evolves_set_col. intros Hwf.
      rewrite length_fillna. by eapply wf_get_col.
    + intros [= <-]. apply evolves_refl.
  - rewrite Hc. intros [= <-]. apply evolves_refl.
Qed.



(** ** Dropping and sorting rows *)

Lemma assoc_get_fmap {A B} (g : A -> B) c (l : list (string * A)) :
  assoc_get c (prod_map id g <$> l) = g <$> assoc_get c l.
Proof.
  induction l as [|[d w] l IH]; simpl; [done|].
  destruct (decide (c = d)); [done|apply IH].
Qed.

Lemma names_fmap {A B} (g : A -> B) (l : list (string * A)) :
  (prod_map id g <$> l).*1 = l.*1.
Proof. rewrite <- list_fmap_compose. apply list_fmap_ext. by intros ? [? ?]. Qed.

Lemma length_filter_mask {A} (v : list cell) (w : list A) :
  length w = length v -> length (filter_mask (notna <$> v) w) = count_valid v.
Proof.
  unfold count_valid. revert w. induction v as [|c v IH]; intros [|x w] Hlen;
    simpl in *; try done.
  rewrite filter_cons. destruct (notna c) eqn:Hc.
  - rewrite decide_True by done. simpl. f_equal. apply IH. lia.
  - rewrite decide_False by (by intros ?). apply IH. lia.
Qed.

Lemma filter_mask_self (v : list cell) :
  filter_mask (notna <$> v) v = filter (fun c => notna c = true) v.
Proof.
  induction v as [|c v IH]; csimpl; [done|].
  rewrite filter_cons. destruct (notna c) eqn:Hc.
  - rewrite decide_True by done. by rewrite IH.
  - rewrite decide_False by (by intros ?). done.
Qed.

Lemma filter_mask_elem {A} mask (l : list A) x :
  x ∈ filter_mask mask l -> x ∈ l.
Proof.
  revert l. induction mask as [|b mask IH]; intros [|y l]; simpl;
    try (by intros ?%elem_of_nil).
  destruct b.
  - intros [->|Hin]%elem_of_cons; [left|right; by apply IH].
  - intros Hin. right. by apply IH.
Qed.

Lemma dropna_subset_inr c df df' :
  dropna_subset c df = inr df' ->
  exists v, get_col c df = Some v /\ nrows df' = count_valid v /\
    (forall d, get_col d df' = filter_mask (notna <$> v) <$> get_col d df) /\
    column_names df' = column_names df /\
    (wf_df df -> wf_df df').
Proof.
  unfold dropna_subset. intros Hd. inv_bind Hd as v Hv.
  apply getitem_inr in Hv. injection Hd as <-. exists v.
  split_and!; [done|done|..].
  - intros d. unfold get_col. simpl. apply assoc_get_fmap.
  - unfold column_names. simpl. apply names_fmap.
  - intros Hwf. unfold wf_df in *. simpl. rewrite Forall_fmap.
    eapply Forall_impl; [exact Hwf|]. intros [d w] Hlen. simpl in *.
    apply length_filter_mask. rewrite Hlen. symmetry. by eapply wf_get_col.
Qed.

Lemma dropna_subset_Some c df v :
  get_col c df = Some v -> exists df', dropna_subset c df = inr df'.
Proof. intros Hg. unfold dropna_subset, getitem. rewrite Hg. by eexists. Qed.

Lemma key_le_rank (p q : cell * nat) :
  key_le p q <->
  match key_rank p.1, key_rank q.1 with
  | Some a, Some b => a < b \/ (a = b /\ (p.2 <= q.2)%nat)
  | Some _, None => True
  | None, Some _ => False
  | None, None => (p.2 <= q.2)%nat
  end.
Proof.
  unfold key_le, key_leb. destruct p as [c i], q as [d j]. simpl.
  destruct c, d; simpl;
    rewrite ?orb_True, ?andb_True, ?Is_true_true, ?Z.ltb_lt, ?Z.eqb_eq,
      ?Nat.leb_le; try done.
Qed.

Global Instance key_le_total : Total key_le.
Proof.
  intros p q. rewrite !key_le_rank.
  destruct (key_rank p.1), (key_rank q.1); lia.
Qed.

Global Instance key_le_trans : Transitive key_le.
Proof.
  intros p q r. rewrite !key_le_rank.
  destruct (key_rank p.1), (key_rank q.1), (key_rank r.1); lia.
Qed.


Definition sorted_pairs (keys : list cell) : list (cell * nat) :=
  merge_sort key_le (zip keys (seq 0 (length keys))).

Lemma sorted_pairs_perm keys :
  sorted_pairs keys ≡ₚ zip keys (seq 0 (length keys)).
Proof. apply merge_sort_Permutation. Qed.

Lemma sorted_pairs_lookup keys k i :
  (k, i) ∈ sorted_pairs keys -> keys !! i = Some k.
Proof.
  rewrite sorted_pairs_perm. intros Hin.
  apply elem_of_lookup_zip_with in Hin as (j & x & y & [= -> ->] & Hx & Hy).
  apply lookup_seq in Hy as [-> _]. done.
Qed.

Lemma argsort_perm keys : argsort keys ≡ₚ seq 0 (length keys).
Proof.
  unfold argsort. fold (sorted_pairs keys). rewrite sorted_pairs_perm.
  rewrite snd_zip; [done|]. rewrite length_seq. done.
Qed.

Lemma length_argsort keys : length (argsort keys) = length keys.
Proof. rewrite argsort_perm. apply length_seq. Qed.

Lemma argsort_lt keys i : i ∈ argsort keys -> (i < length keys)%nat.
Proof. rewrite argsort_perm. intros Hi%elem_of_seq. lia. Qed.

Lemma length_take_rows order v : length (take_rows order v) = length order.
Proof. unfold take_rows. apply length_fmap. Qed.


Lemma take_rows_keys keys : take_rows (argsort keys) keys = (sorted_pairs keys).*1.
Proof.
  unfold take_rows, argsort. fold (sorted_pairs keys).
  rewrite <- list_fmap_compose. apply list_fmap_ext.
  intros j [k i] Hj. simpl. apply nth_lookup_Some.
  apply sorted_pairs_lookup. by eapply list_elem_of_lookup_2.
Qed.


Definition rank_or_zero (p : cell * nat) : Z := default 0 (key_rank p.1).

Lemma StronglySorted_ranks (ps : list (cell * nat)) :
  StronglySorted key_le ps ->
  Forall (fun p => is_Some (key_rank p.1)) ps ->
  StronglySorted Z.le (rank_or_zero <$> ps).
Proof.
  induction 1 as [|p ps Hss IH Hhd]; intros Hall; csimpl; constructor.
  - apply IH. by apply Forall_cons in Hall as [_ ?].
  - apply Forall_cons in Hall as [[a Ha] Hall]. apply Forall_fmap.
    rewrite Forall_forall in *. intros q Hq.
    specialize (Hhd q Hq). destruct (Hall q Hq) as [b Hb].
    apply key_le_rank in Hhd. unfold rank_or_zero. simpl.
    rewrite Ha, Hb in *. simpl. lia.
Qed.

Lemma all_times (l : list cell) :
  Forall (fun c => is_Some (key_rank c)) l ->
  l = Time <$> ((fun c => default 0 (key_rank c)) <$> l).
Proof.
  induction 1 as [|c l [a Ha] _ IH]; csimpl; [done|].
  rewrite <- IH. f_equal. destruct c; simpl in *; done.
Qed.

(** Sorting puts the timestamps in ascending order. *)
Lemma sorted_times (ts : list Z) :
  exists ts', take_rows (argsort (Time <$> ts)) (Time <$> ts) = Time <$> ts' /\
    ts' ≡ₚ ts /\ Sorted Z.le ts'.
Proof.
  set (keys := Time <$> ts). set (ps := sorted_pairs keys).
  assert (Hperm : ps.*1 ≡ₚ keys).
  { unfold ps. rewrite sorted_pairs_perm. rewrite fst_zip; [done|].
    rewrite length_seq. done. }
  assert (Hall : Forall (fun p => is_Some (key_rank p.1)) ps).
  { apply Forall_forall. intros [k i] Hin. simpl.
    assert (Hk : k ∈ keys).
    { rewrite <- Hperm. apply list_elem_of_fmap. by exists (k, i). }
    apply list_elem_of_fmap in Hk as (t & -> & _). by eexists. }
  exists (rank_or_zero <$> ps). split_and!.
  - rewrite take_rows_keys. fold ps.
    rewrite (all_times (ps.*1)) at 1 by (by apply Forall_fmap).
    f_equal. rewrite <- list_fmap_compose. done.
  - assert (Heq : rank_or_zero <$> ps = (fun c => default 0 (key_rank c)) <$> ps.*1).
    { rewrite <- list_fmap_compose. done. }
    rewrite Heq, Hperm. unfold keys. rewrite <- list_fmap_compose.
    assert (Hid : (fun c => default 0 (key_rank c)) ∘ Time <$> ts = ts).
    { rewrite <- (list_fmap_id ts) at 2. by apply list_fmap_ext. }
    by rewrite Hid.
  - apply StronglySorted_Sorted. apply StronglySorted_ranks; [|done].
    apply Sorted_StronglySorted; [apply _|]. apply Sorted_merge_sort. apply _.
Qed.



Lemma sort_values_inr c df df' :
  sort_values c df = inr df' ->
  exists keys, get_col c df = Some keys /\ nrows df' = nrows df /\
    (forall d, get_col d df' = take_rows (argsort keys) <$> get_col d df) /\
    column_names df' = column_names df /\
    (wf_df df -> wf_df df').
Proof.
  unfold sort_values. intros Hd. inv_bind Hd as keys Hk.
  apply getitem_inr in Hk. injection Hd as <-. exists keys.
  split_and!; [done|done|..].
  - intros d. unfold get_col. simpl. apply assoc_get_fmap.
  - unfold column_names. simpl. apply names_fmap.
  - intros Hwf. unfold wf_df in *. simpl. rewrite Forall_fmap.
    eapply Forall_impl; [exact Hwf|]. intros [d w] Hlen. simpl in *.
    rewrite length_take_rows, length_argsort. by eapply wf_get_col.
Qed.

Lemma sort_values_Some c df keys :
  get_col c df = Some keys -> exists df', sort_values c df = inr df'.
Proof. intros Hg. unfold sort_values, getitem. rewrite Hg. by eexists. Qed.

(** ** Column resolution *)

Lemma col_mapping_snoc names x :
  col_mapping (names ++ [x]) = <[normalize x := x]> (col_mapping names).
Proof. unfold col_mapping. by rewrite foldl_app. Qed.

Lemma col_mapping_None names k :
  col_mapping names !! k = None <-> forall x, x ∈ names -> normalize x <> k.
Proof.
  induction names as [|x names IH] using rev_ind.
  - unfold col_mapping. simpl. rewrite lookup_empty. split; [|done].
    by intros _ x ?%elem_of_nil.
  - rewrite col_mapping_snoc. rewrite lookup_insert_None, IH. split.
    + intros [Hn Hx] y [Hy|Hy%list_elem_of_singleton]%elem_of_app; subst; auto.
    + intros Hall. split.
      * intros y Hy. apply Hall. apply elem_of_app. by left.
      * apply Hall. apply elem_of_app. right. by apply list_elem_of_singleton.
Qed.

(** The dict keeps the last column of each key. *)
Lemma col_mapping_Some names k c :
  col_mapping names !! k = Some c <->
  exists pre post, names = pre ++ c :: post /\ normalize c = k /\
    forall x, x ∈ post -> normalize x <> k.
Proof.
  induction names as [|x names IH] using rev_ind.
  - unfold col_mapping. simpl. rewrite lookup_empty. split; [done|].
    intros (pre & post & Heq & _). by destruct pre.
  - rewrite col_mapping_snoc. destruct (decide (normalize x = k)) as [Hk|Hk].
    + rewrite <- Hk, lookup_insert_eq. split.
      * intros [= ->]. exists names, []. split_and!; [done|done|].
        by intros y ?%elem_of_nil.
      * intros (pre & post & Heq & Hc & Hpost).
        destruct post as [|y post _] using rev_ind.
        -- apply app_inj_tail in Heq as [_ ->]. done.
        -- rewrite app_comm_cons, app_assoc in Heq.
           apply app_inj_tail in Heq as [_ ->].
           exfalso. apply (Hpost y); [|done].
           apply elem_of_app. right. by apply list_elem_of_singleton.
    + rewrite lookup_insert_ne by done. rewrite IH. split.
      * intros (pre & post & -> & Hc & Hpost).
        exists pre, (post ++ [x]). split_and!; [by rewrite <- app_assoc|done|].
        intros y [Hy|Hy%list_elem_of_singleton]%elem_of_app; subst; auto.
      * intros (pre & post & Heq & Hc & Hpost).
        destruct post as [|y post _] using rev_ind.
        -- apply app_inj_tail in Heq as [_ ->]. done.
        -- rewrite app_comm_cons, app_assoc in Heq.
           apply app_inj_tail in Heq as [-> ->].
           exists pre, post. split_and!; [done|done|].
           intros z Hz. apply Hpost. apply elem_of_app. by left.
Qed.

Lemma col_mapping_elem names k c :
  col_mapping names !! k = Some c -> c ∈ names /\ normalize c = k.
Proof.
  intros (pre & post & -> & Hc & _)%col_mapping_Some. split; [|done].
  apply elem_of_app. right. left.
Qed.

Lemma col_mapping_app names extra k :
  (forall x, x ∈ extra -> normalize x <> k) ->
  col_mapping (names ++ extra) !! k = col_mapping names !! k.
Proof.
  induction extra as [|x extra IH] using rev_ind; intros Hx.
  - by rewrite app_nil_r.
  - rewrite app_assoc, col_mapping_snoc, lookup_insert_ne.
    + apply IH. intros y Hy. apply Hx. apply elem_of_app. by left.
    + apply Hx. apply elem_of_app. right. by apply list_elem_of_singleton.
Qed.

(** The loop over the columns stops at the first datetime name. *)
Lemma find_datetime_col_Some names c :
  find_datetime_col names = Some c <->
  exists pre post, names = pre ++ c :: post /\ is_datetime_name c = true /\
    forall x, x ∈ pre -> is_datetime_name x = false.
Proof.
  unfold find_datetime_col. induction names as [|x names IH]; simpl.
  - split; [done|]. intros (pre & post & Heq & _). by destruct pre.
  - destruct (is_datetime_name x) eqn:Hx.
    + split.
      * intros [= ->]. exists [], names. split_and!; [done|done|].
        by intros y ?%elem_of_nil.
      * intros (pre & post & Heq & Hc & Hpre). destruct pre as [|y pre].
        -- simpl in Heq. by injection Heq as ->.
        -- simpl in Heq. injection Heq as -> _.
           rewrite Hpre in Hx by left. done.
    + rewrite IH. split.
      * intros (pre & post & -> & Hc & Hpre). exists (x :: pre), post.
        split_and!; [done|done|].
        intros y [->|Hy]%elem_of_cons; auto.
      * intros (pre & post & Heq & Hc & Hpre). destruct pre as [|y pre].
        -- simpl in Heq. injection Heq as -> _. congruence.
        -- simpl in Heq. injection Heq as -> ->. exists pre, post.
           split_and!; [done|done|]. intros z Hz. apply Hpre. by right.
Qed.

Lemma find_datetime_col_None names :
  find_datetime_col names = None <->
  forall x, x ∈ names -> is_datetime_name x = false.
Proof.
  unfold find_datetime_col. induction names as [|x names IH]; simpl.
  - split; [|done]. by intros _ x ?%elem_of_nil.
  - destruct (is_datetime_name x) eqn:Hx.
    + split; [done|]. intros Hall. rewrite Hall in Hx by left. done.
    + rewrite IH. split.
      * intros Hall y [->|Hy]%elem_of_cons; auto.
      * intros Hall y Hy. apply Hall. by right.
Qed.

Lemma is_datetime_name_false col :
  is_datetime_name col = false <->
  forall v, v ∈ possible_datetime_cols -> normalize col <> normalize_variant v.
Proof.
  unfold is_datetime_name. rewrite bool_decide_eq_false. split.
  - intros Hn v Hv Heq. apply Hn. rewrite Heq. apply list_elem_of_fmap. eauto.
  - intros Hall (v & Heq & Hv)%list_elem_of_fmap. by apply (Hall v).
Qed.

(** ** The stages of the pipeline *)

Definition temporal_columns : list string :=
  ["datetime_utc"; "year"; "month"; "day"; "hour"; "date"; "month_name"].

Ltac in_list := apply list_elem_of_In; simpl; tauto.

Section stages.
Context `{PyText}.

Lemma derive_temporal_no_column df :
  find_datetime_col (column_names df) = None ->
  derive_temporal df = inl SchemaError.
Proof. intros Hf. unfold derive_temporal. by rewrite Hf. Qed.

Lemma derive_temporal_no_dates df c raw :
  find_datetime_col (column_names df) = Some c ->
  get_col c df = Some raw ->
  count_valid (to_datetime <$> raw) = 0%nat ->
  derive_temporal df = inl DataQualityError.
Proof.
  intros Hf Hg Hv. unfold derive_temporal. rewrite Hf.
  rewrite (assign_from_Some _ _ _ _ _ Hg). simpl.
  unfold getitem. rewrite get_set_col_eq. simpl. by rewrite Hv.
Qed.

Lemma derive_temporal_inr df df1 :
  derive_temporal df = inr df1 ->
  exists c raw, find_datetime_col (column_names df) = Some c /\
    get_col c df = Some raw /\
    count_valid (to_datetime <$> raw) <> 0%nat /\
    get_col "datetime_utc" df1 = Some (to_datetime <$> raw) /\
    evolves temporal_columns df df1.
Proof.
  unfold derive_temporal.
  destruct (find_datetime_col (column_names df)) as [c|] eqn:Hf; [|done].
  intros Hd. inv_bind Hd as d0 Hd0. inv_bind Hd as dt Hdt.
  pose proof (assign_from_evolves _ _ _ _ _ Hd0) as E0.
  apply assign_from_inr in Hd0 as (raw & Hraw & ->).
  apply getitem_inr in Hdt. rewrite get_set_col_eq in Hdt. injection Hdt as <-.
  destruct (count_valid (to_datetime <$> raw) =? 0)%nat eqn:Hv; [done|].
  apply Nat.eqb_neq in Hv.
  inv_bind Hd as d1 Hd1. inv_bind Hd as d2 Hd2. inv_bind Hd as d3 Hd3.
  inv_bind Hd as d4 Hd4. inv_bind Hd as d5 Hd5.
  pose proof (assign_from_evolves _ _ _ _ _ Hd1) as E1.
  pose proof (assign_from_evolves _ _ _ _ _ Hd2) as E2.
  pose proof (assign_from_evolves _ _ _ _ _ Hd3) as E3.
  pose proof (assign_from_evolves _ _ _ _ _ Hd4) as E4.
  pose proof (assign_from_evolves _ _ _ _ _ Hd5) as E5.
  pose proof (assign_from_evolves _ _ _ _ _ Hd) as E6.
  exists c, raw. split_and!; [done|done|done|..].
  - rewrite (ev_frame _ _ _ E6), (ev_frame _ _ _ E5), (ev_frame _ _ _ E4),
      (ev_frame _ _ _ E3), (ev_frame _ _ _ E2), (ev_frame _ _ _ E1);
      try (by intros ?%list_elem_of_singleton).
    apply get_set_col_eq.
  - do 6 (eapply evolves_trans;
      [|eapply evolves_weaken; [|eassumption];
        intros ? ->%list_elem_of_singleton; in_list]).
    eapply evolves_weaken; [|exact E0].
    intros ? ->%list_elem_of_singleton; in_list.
Qed.


End stages.

Lemma count_na_valid v : (count_na v + count_valid v = length v)%nat.
Proof.
  unfold count_na, count_valid. induction v as [|c v IH]; simpl; [done|].
  rewrite !filter_cons. unfold notna in *. destruct (isna c); simpl; lia.
Qed.

Section trace.
Context `{PyText}.

Lemma to_datetime_cases c :
  (exists t, to_datetime c = Time t) \/ to_datetime c = NaT.
Proof.
  destruct c; simpl; eauto; destruct (py_datetime _); eauto.
Qed.

Lemma filter_valid_times raw :
  filter (fun c => notna c = true) (to_datetime <$> raw) = Time <$> valid_times raw.
Proof.
  unfold valid_times. induction raw as [|c raw IH]; csimpl; [done|].
  rewrite filter_cons.
  destruct (to_datetime_cases c) as [[t Ht]|Ht]; rewrite Ht; csimpl.
  - by rewrite IH.
  - done.
Qed.

Lemma count_valid_times raw :
  count_valid (to_datetime <$> raw) = length (valid_times raw).
Proof. unfold count_valid. by rewrite filter_valid_times, length_fmap. Qed.

(** The frames between the stages of a run that returns. *)
Record stages (df : DataFrame) (c : string) (raw : list cell)
    (df1 df2 df3 df4 df5 df6 df7 out : DataFrame) : Prop := mkStages {
  st_find : find_datetime_col (column_names df) = Some c;
  st_get : get_col c df = Some raw;
  st_valid : count_valid (to_datetime <$> raw) <> 0%nat;
  st_temporal : evolves temporal_columns df df1;
  st_dt : get_col "datetime_utc" df1 = Some (to_datetime <$> raw);
  st_numeric :
    foldM_result (map_numeric (col_mapping (column_names df1)))
      numeric_columns df1 = inr df2;
  st_categorical :
    foldM_result (map_categorical (col_mapping (column_names df1)))
      categorical_columns df2 = inr df3;
  st_event :
    foldM_result (map_event (col_mapping (column_names df1)))
      boolean_columns df3 = inr df4;
  st_dropna : dropna_subset "datetime_utc" df4 = inr df5;
  st_critical : foldM_result impute_critical critical_columns df5 = inr df6;
  st_other : foldM_result impute_other other_numeric df6 = inr df7;
  st_sort : sort_values "datetime_utc" df7 = inr out
}.

Lemma clean_and_transform_data_inr df out :
  clean_and_transform_data df = inr out ->
  exists c raw df1 df2 df3 df4 df5 df6 df7,
    stages df c raw df1 df2 df3 df4 df5 df6 df7 out.
Proof.
  unfold clean_and_transform_data. intros Hc.
  inv_bind Hc as df1 H1. inv_bind Hc as df2 H2. inv_bind Hc as df3 H3.
  inv_bind Hc as df4 H4. inv_bind Hc as df5 H5. inv_bind Hc as df6 H6.
  inv_bind Hc as df7 H7.
  apply derive_temporal_inr in H1 as (c & raw & Hf & Hg & Hv & Hdt & Hev).
  exists c, raw, df1, df2, df3, df4, df5, df6, df7. by split.
Qed.

Lemma numeric_stage_evolves cm d d' :
  foldM_result (map_numeric cm) numeric_columns d = inr d' ->
  evolves numeric_columns.*2 d d'.
Proof. apply (foldM_evolves _ snd). apply map_numeric_evolves. Qed.

Lemma categorical_stage_evolves cm d d' :
  foldM_result (map_categorical cm) categorical_columns d = inr d' ->
  evolves categorical_columns.*2 d d'.
Proof. apply (foldM_evolves _ snd). apply map_categorical_evolves. Qed.

Lemma event_stage_evolves cm d d' :
  foldM_result (map_event cm) boolean_columns d = inr d' ->
  evolves (event_name <$> boolean_columns) d d'.
Proof. apply (foldM_evolves _ event_name). apply map_event_evolves. Qed.

Lemma critical_stage_evolves d d' :
  foldM_result impute_critical critical_columns d = inr d' ->
  evolves critical_columns d d'.
Proof.
  intros Hf. apply (foldM_evolves _ id) in Hf.
  - by rewrite list_fmap_id in Hf.
  - apply impute_critical_evolves.
Qed.

Lemma other_stage_evolves d d' :
  foldM_result impute_other other_numeric d = inr d' ->
  evolves other_numeric d d'.
Proof.
  intros Hf. apply (foldM_evolves _ id) in Hf.
  - by rewrite list_fmap_id in Hf.
  - apply impute_other_evolves.
Qed.

End trace.

(** ** What a run leaves in its frames *)

Definition middle_targets : list string :=
  numeric_columns.*2 ++ categorical_columns.*2 ++ (event_name <$> boolean_columns).

Ltac not_in_list :=
  let Hin := fresh in intros Hin; apply list_elem_of_In in Hin; simpl in Hin;
  repeat (destruct Hin as [Hin|Hin]; [discriminate Hin|]); exact Hin.

Section run_facts.
Context `{PyText}.
Context (df : DataFrame) (c : string) (raw : list cell).
Context (df1 df2 df3 df4 df5 df6 df7 out : DataFrame).
Context (Hst : stages df c raw df1 df2 df3 df4 df5 df6 df7 out).

Let dt := to_datetime <$> raw.
Let mask := notna <$> dt.
Let ts := valid_times raw.
Let order := argsort (Time <$> ts).

Lemma run_middle : evolves middle_targets df1 df4.
Proof.
  destruct Hst. unfold middle_targets.
  eapply evolves_trans; [|eapply evolves_trans].
  - eapply evolves_weaken; [|by eapply numeric_stage_evolves].
    intros x Hx. apply elem_of_app. by left.
  - eapply evolves_weaken; [|by eapply categorical_stage_evolves].
    intros x Hx. apply elem_of_app. right. apply elem_of_app. by left.
  - eapply evolves_weaken; [|by eapply event_stage_evolves].
    intros x Hx. apply elem_of_app. right. apply elem_of_app. by right.
Qed.

Lemma run_impute : evolves impute_targets df5 df7.
Proof.
  destruct Hst. unfold impute_targets. eapply evolves_trans.
  - eapply evolves_weaken; [|by eapply critical_stage_evolves].
    intros x Hx. apply elem_of_app. by left.
  - eapply evolves_weaken; [|by eapply other_stage_evolves].
    intros x Hx. apply elem_of_app. by right.
Qed.

Lemma run_dt4 : get_col "datetime_utc" df4 = Some dt.
Proof.
  rewrite (ev_frame _ _ _ run_middle); [by destruct Hst|]. not_in_list.
Qed.

Lemma run_df5 d : get_col d df5 = filter_mask mask <$> get_col d df4.
Proof.
  destruct Hst. apply dropna_subset_inr in st_dropna0 as (v & Hv & _ & Hcols & _).
  rewrite run_dt4 in Hv. injection Hv as <-. apply Hcols.
Qed.

Lemma run_nrows5 : nrows df5 = length ts.
Proof.
  destruct Hst. apply dropna_subset_inr in st_dropna0 as (v & Hv & Hn & _).
  rewrite run_dt4 in Hv. injection Hv as <-. rewrite Hn.
  apply count_valid_times.
Qed.

Lemma run_dt7 : get_col "datetime_utc" df7 = Some (Time <$> ts).
Proof.
  rewrite (ev_frame _ _ _ run_impute) by not_in_list.
  rewrite run_df5, run_dt4. simpl. f_equal. unfold mask.
  rewrite filter_mask_self. apply filter_valid_times.
Qed.

Lemma run_out d : get_col d out = take_rows order <$> get_col d df7.
Proof.
  destruct Hst. apply sort_values_inr in st_sort0 as (keys & Hk & _ & Hcols & _).
  rewrite run_dt7 in Hk. injection Hk as <-. apply Hcols.
Qed.

Lemma run_nrows : nrows out = length ts.
Proof.
  destruct Hst. apply sort_values_inr in st_sort0 as (keys & _ & Hn & _).
  rewrite Hn, (ev_nrows _ _ _ run_impute). apply run_nrows5.
Qed.




End run_facts.

(** ** Stripping text *)

Lemma lstrip_head s c s' : PyStr.lstrip s = String c s' -> PyStr.is_space c = false.
Proof.
  induction s as [|d s IH]; simpl; [done|].
  destruct (PyStr.is_space d) eqn:Hd; [done|]. by intros [= <- _].
Qed.

Lemma rstrip_head c s :
  PyStr.is_space c = false -> exists r, PyStr.rstrip (String c s) = String c r.
Proof.
  intros Hc. simpl. destruct (PyStr.rstrip s); [|by eexists].
  rewrite Hc. by eexists.
Qed.

Lemma rstrip_idemp s : PyStr.rstrip (PyStr.rstrip s) = PyStr.rstrip s.
Proof.
  induction s as [|c s IH]; simpl; [done|].
  destruct (PyStr.rstrip s) as [|d r] eqn:Hr.
  - destruct (PyStr.is_space c) eqn:Hc; simpl; [done|]. by rewrite Hc.
  - simpl in *. by rewrite IH.
Qed.

Lemma strip_idemp s : PyStr.strip (PyStr.strip s) = PyStr.strip s.
Proof.
  unfold PyStr.strip. destruct (PyStr.lstrip s) as [|c t] eqn:Hl; [done|].
  apply lstrip_head in Hl. destruct (rstrip_head c t Hl) as [r Hr].
  rewrite Hr. simpl PyStr.lstrip. rewrite Hl. rewrite <- Hr. apply rstrip_idemp.
Qed.

(** ** The median *)

Global Instance Qleb_rel_total : Total Qleb_rel.
Proof.
  intros x y. unfold Qleb_rel. rewrite !Is_true_true, !Qle_bool_iff.
  destruct (Qlt_le_dec x y) as [Hlt|Hle]; [left|by right].
  by apply Qlt_le_weak.
Qed.









(** ** The store *)

Lemma keyed_mapM {V} (g : string -> result V) (keys : list string) row :
  mapM_result (fun k => v ← g k; mret (k, v)) keys = inr row ->
  forall k, k ∈ keys -> exists v, g k = inr v /\ assoc_get k row = Some v.
Proof.
  revert row. induction keys as [|k0 keys IH]; intros row Hm k Hk.
  { by apply elem_of_nil in Hk. }
  simpl in Hm. inv_bind Hm as p Hp. inv_bind Hm as row' Hrow'.
  injection Hm as <-. inv_bind Hp as v0 Hv0. injection Hp as <-. simpl.
  destruct (decide (k = k0)) as [->|Hne]; [by exists v0|].
  apply elem_of_cons in Hk as [?|Hk]; [done|]. by apply IH.
Qed.



Section store.
Context `{PyText}.

Definition stamp_cell (dt : cell) : result cell :=
  if notna dt then isoformat_cell dt else mret PyNone.

Definition date_cell (d : cell) : cell :=
  if notna d then Str (astype_str d) else PyNone.

Lemma make_record_fields df i r :
  make_record df i = inr r ->
  (exists x, stamp_cell (row_get df i "datetime_utc" PyNone) = inr x /\
     assoc_get "datetime_utc" r = Some x) /\
  assoc_get "date" r = Some (date_cell (row_get df i "date" PyNone)) /\
  (forall k, k ∈ plain_fields -> assoc_get k r = Some (row_get df i k PyNone)) /\
  (forall k, k ∈ event_fields -> assoc_get k r = Some (row_get df i k (Int 0))).
Proof.
  unfold make_record. intros Hm. inv_bind Hm as x Hx. injection Hm as <-.
  split_and!.
  - by exists x.
  - reflexivity.
  - intros k Hk. apply list_elem_of_In in Hk. simpl in Hk.
    repeat (destruct Hk as [<-|Hk]; [reflexivity|]). done.
  - intros k Hk. apply list_elem_of_In in Hk. simpl in Hk.
    repeat (destruct Hk as [<-|Hk]; [reflexivity|]). done.
Qed.







End store.

Lemma Forall2_right_elem {A B} (P : A -> B -> Prop) (l : list A) (k : list B) y :
  Forall2 P l k -> y ∈ k -> exists x, x ∈ l /\ P x y.
Proof.
  induction 1 as [|x y' l k Hxy _ IH]; intros Hy.
  - by apply elem_of_nil in Hy.
  - apply elem_of_cons in Hy as [->|Hy].
    + exists x. split; [left|done].
    + destruct (IH Hy) as (x' & Hx' & HP). exists x'. split; [by right|done].
Qed.

(** ** Resolved columns are raw columns *)

Definition written_columns : list string :=
  temporal_columns ++ middle_targets ++ impute_targets.

Lemma written_not_keys t k :
  t ∈ written_columns -> k ∈ lookup_keys -> normalize t <> k.
Proof.
  intros Ht Hk Heq. subst k.
  assert (Hall : Forall (fun t => normalize t ∉ lookup_keys) written_columns).
  { apply (bool_decide_unpack _). by vm_compute. }
  rewrite Forall_forall in Hall. by apply (Hall t).
Qed.

Lemma resolved_not_written names k a :
  k ∈ lookup_keys -> col_mapping names !! k = Some a -> a ∉ written_columns.
Proof.
  intros Hk [_ Hn]%col_mapping_elem Hw. by apply (written_not_keys a k).
Qed.

Lemma resolve_on_raw df df1 k :
  evolves temporal_columns df df1 -> k ∈ lookup_keys ->
  col_mapping (column_names df1) !! k = col_mapping (column_names df) !! k.
Proof.
  intros [_ _ _ (extra & -> & Hextra)] Hk. apply col_mapping_app.
  intros x Hx. apply written_not_keys; [|done].
  apply elem_of_app. left. by apply Hextra.
Qed.

Lemma numeric_key e : e ∈ numeric_columns -> normalize e.1 ∈ lookup_keys.
Proof.
  intros He. apply elem_of_app. left. apply list_elem_of_fmap. eauto.
Qed.


Lemma event_key col : col ∈ boolean_columns -> PyStr.lower col ∈ lookup_keys.
Proof.
  intros He. apply elem_of_app. right. apply elem_of_app. right.
  apply list_elem_of_fmap. eauto.
Qed.

Lemma middle_written t : t ∈ middle_targets -> t ∈ written_columns.
Proof. intros Ht. apply elem_of_app. right. apply elem_of_app. by left. Qed.

Lemma temporal_written t : t ∈ temporal_columns -> t ∈ written_columns.
Proof. intros Ht. apply elem_of_app. by left. Qed.

Lemma numeric_target_middle e : e ∈ numeric_columns -> e.2 ∈ middle_targets.
Proof. intros He. apply elem_of_app. left. apply list_elem_of_fmap. eauto. Qed.

Lemma NoDup_middle_targets : NoDup middle_targets.
Proof. apply (bool_decide_unpack _). by vm_compute. Qed.

Lemma NoDup_impute_targets : NoDup impute_targets.
Proof. apply (bool_decide_unpack _). by vm_compute. Qed.

Section run_columns.
Context `{PyText}.
Context (df : DataFrame) (c : string) (raw : list cell).
Context (df1 df2 df3 df4 df5 df6 df7 out : DataFrame).
Context (Hst : stages df c raw df1 df2 df3 df4 df5 df6 df7 out).

Let cm := col_mapping (column_names df1).

Lemma run_ev12 : evolves numeric_columns.*2 df1 df2.
Proof. destruct Hst. by eapply numeric_stage_evolves. Qed.

Lemma run_ev23 : evolves categorical_columns.*2 df2 df3.
Proof. destruct Hst. by eapply categorical_stage_evolves. Qed.


Lemma run_ev01 : evolves temporal_columns df df1.
Proof. by destruct Hst. Qed.

Lemma unwritten1 a : a ∉ written_columns -> get_col a df1 = get_col a df.
Proof.
  intros Ha. apply (ev_frame _ _ _ run_ev01). intros Hin. apply Ha.
  by apply temporal_written.
Qed.

Lemma unwritten2 a : a ∉ written_columns -> get_col a df2 = get_col a df.
Proof.
  intros Ha. rewrite (ev_frame _ _ _ run_ev12); [by apply unwritten1|].
  intros Hin. apply Ha, middle_written. apply elem_of_app. by left.
Qed.

Lemma unwritten3 a : a ∉ written_columns -> get_col a df3 = get_col a df.
Proof.
  intros Ha. rewrite (ev_frame _ _ _ run_ev23); [by apply unwritten2|].
  intros Hin. apply Ha, middle_written. apply elem_of_app. right.
  apply elem_of_app. by left.
Qed.

Lemma resolved_cm k : k ∈ lookup_keys ->
  cm !! k = col_mapping (column_names df) !! k.
Proof. apply resolve_on_raw. apply run_ev01. Qed.



(** The event stage, seen from the raw frame. *)
Lemma event_stage_col col :
  col ∈ boolean_columns ->
  match col_mapping (column_names df) !! PyStr.lower col with
  | Some a => exists va flags, get_col a df = Some va /\
                mapM_result astype_int (fillna0 <$> va) = inr flags /\
                get_col (event_name col) df4 = Some flags
  | None => get_col (event_name col) df4 = Some (replicate (nrows df) (Int 0))
  end.
Proof.
  intros He. pose proof (event_key col He) as Hk.
  destruct Hst.
  pose proof (foldM_columns (map_event cm) event_name (event_rd cm)
    (event_R cm) (map_event_evolves cm) (map_event_result cm)
    boolean_columns df3 df4 st_event0) as Hcols.
  specialize (Hcols ltac:(apply (bool_decide_unpack _); by vm_compute)).
  assert (Hdisj : forall x a, x ∈ boolean_columns -> event_rd cm x = Some a ->
            a ∉ event_name <$> boolean_columns).
  { intros x a Hx Ha Hin.
    apply (resolved_not_written _ _ _ (event_key x Hx) Ha).
    apply middle_written. apply elem_of_app. right. apply elem_of_app. by right. }
  specialize (Hcols Hdisj col He). unfold event_R, read_col, event_rd in Hcols.
  rewrite <- resolved_cm by done. fold cm.
  destruct (cm !! PyStr.lower col) as [a|] eqn:Hcm; simpl in Hcols.
  - destruct Hcols as (va & flags & Hva & Hflags & Hnew). exists va, flags.
    split_and!; [|done|done].
    rewrite <- Hva. symmetry. apply unwritten3.
    by eapply resolved_not_written.
  - rewrite Hcols. do 2 f_equal.
    rewrite (ev_nrows _ _ _ run_ev23), (ev_nrows _ _ _ run_ev12).
    apply (ev_nrows _ _ _ st_temporal0).
Qed.

End run_columns.

Section run_output.
Context `{PyText}.
Context (df : DataFrame) (c : string) (raw : list cell).
Context (df1 df2 df3 df4 df5 df6 df7 out : DataFrame).
Context (Hst : stages df c raw df1 df2 df3 df4 df5 df6 df7 out).
Context (Hwf : wf_df df).


End run_output.

(** ** Event flags *)



Section flags.
Context `{PyText}.



End flags.

(** ** When the pipeline returns *)



Section total.
Context `{PyText}.

Lemma to_numeric_numeric c : numeric_or_missing (to_numeric c).
Proof. destruct c; simpl; try done. by destruct (py_float s). Qed.

Lemma numeric_stage_raw df df1 df2 e :
  evolves temporal_columns df df1 ->
  foldM_result (map_numeric (col_mapping (column_names df1))) numeric_columns df1
    = inr df2 ->
  e ∈ numeric_columns ->
  match col_mapping (column_names df) !! normalize e.1 with
  | Some a => exists va, get_col a df = Some va /\
                get_col e.2 df2 = Some (to_numeric <$> va)
  | None => get_col e.2 df2 = get_col e.2 df
  end.
Proof.
  intros E01 H2 He. pose proof (numeric_key e He) as Hk.
  set (cm := col_mapping (column_names df1)) in *.
  pose proof (foldM_columns (map_numeric cm) snd (numeric_rd cm) (numeric_R cm)
    (map_numeric_evolves cm) (map_numeric_result cm)
    numeric_columns df1 df2 H2) as Hcols.
  specialize (Hcols ltac:(apply (bool_decide_unpack _); by vm_compute)).
  assert (Hdisj : forall x a, x ∈ numeric_columns -> numeric_rd cm x = Some a ->
            a ∉ snd <$> numeric_columns).
  { intros x a Hx Ha Hin.
    apply (resolved_not_written _ _ _ (numeric_key x Hx) Ha).
    apply middle_written. apply elem_of_app. by left. }
  specialize (Hcols Hdisj e He). unfold numeric_R, read_col, numeric_rd in Hcols.
  rewrite <- (resolve_on_raw df df1) by done. fold cm.
  destruct (cm !! normalize e.1) as [a|] eqn:Hcm; simpl in Hcols.
  - destruct Hcols as (va & Hva & Hnew). exists va. split; [|done].
    rewrite <- Hva. symmetry. apply (ev_frame _ _ _ E01).
    intros Hin. eapply resolved_not_written; [exact Hk|exact Hcm|].
    by apply temporal_written.
  - rewrite Hcols. apply (ev_frame _ _ _ E01).
    apply numeric_target_middle in He. revert He.
    generalize e.2. apply Forall_forall. apply (bool_decide_unpack _). by vm_compute.
Qed.

Lemma impute_target_numeric t :
  t ∈ impute_targets -> exists e, e ∈ numeric_columns /\ e.2 = t.
Proof.
  intros Ht.
  assert (Hall : Forall (fun t => Exists (fun e => e.2 = t) numeric_columns)
                   impute_targets).
  { apply (bool_decide_unpack _). by vm_compute. }
  rewrite Forall_forall in Hall. specialize (Hall t Ht).
  apply Exists_exists in Hall as (e & He & Heq). eauto.
Qed.


End total.

Section pipeline_total.
Context `{PyText}.


End pipeline_total.

Section run_impute.
Context `{PyText}.
Context (df : DataFrame) (c : string) (raw : list cell).
Context (df1 df2 df3 df4 df5 df6 df7 out : DataFrame).
Context (Hst : stages df c raw df1 df2 df3 df4 df5 df6 df7 out).

Lemma critical_not_other t : t ∈ critical_columns -> t ∉ other_numeric.
Proof.
  pose proof NoDup_impute_targets as Hnd. unfold impute_targets in Hnd.
  apply NoDup_app in Hnd as (_ & Hnd & _). apply Hnd.
Qed.




End run_impute.

(** ** Unresolved fields and dropped rows *)






(** ** Forward fill and median fill *)









(** ** Rows and their order *)

Lemma filter_mask_fmap {A B} (g : A -> B) mask (l : list A) :
  filter_mask mask (g <$> l) = g <$> filter_mask mask l.
Proof.
  revert l. induction mask as [|b mask IH]; intros [|x l]; csimpl; try done.
  destruct b; csimpl; by rewrite IH.
Qed.

Lemma nth_fmap_lt {A B} (g : A -> B) (l : list A) i d e :
  (i < length l)%nat -> nth i (g <$> l) e = g (nth i l d).
Proof.
  intros Hi. apply lookup_lt_is_Some in Hi as [x Hx].
  rewrite (nth_lookup_Some _ _ d _ Hx). apply nth_lookup_Some.
  by rewrite list_lookup_fmap, Hx.
Qed.

Lemma take_rows_fmap (g : cell -> cell) order v :
  Forall (fun i => (i < length v)%nat) order ->
  take_rows order (g <$> v) = g <$> take_rows order v.
Proof.
  intros Hlt. unfold take_rows. rewrite <- list_fmap_compose.
  apply list_fmap_ext. intros j i Hj. simpl.
  apply nth_fmap_lt. rewrite Forall_forall in Hlt. apply Hlt.
  by eapply list_elem_of_lookup_2.
Qed.

Lemma seq_nth_fmap {A} (l : list A) d :
  (fun i => nth i l d) <$> seq 0 (length l) = l.
Proof.
  apply list_eq. intros i. rewrite list_lookup_fmap.
  destruct (decide (i < length l)%nat) as [Hlt|Hge].
  - rewrite lookup_seq_lt by done. simpl.
    apply lookup_lt_is_Some in Hlt as [y Hy]. rewrite Hy.
    f_equal. by apply nth_lookup_Some.
  - rewrite lookup_seq_ge by lia. simpl. symmetry. apply lookup_ge_None. lia.
Qed.


Lemma filter_mask_seq_elem {A} (P : A -> bool) (l : list A) k i :
  i ∈ filter_mask (P <$> l) (seq k (length l)) <->
  (k <= i)%nat /\ exists x, l !! (i - k)%nat = Some x /\ P x = true.
Proof.
  revert k. induction l as [|y l IH]; intros k; csimpl.
  - split; [by intros ?%elem_of_nil|]. by intros (_ & x & Hx & _).
  - destruct (P y) eqn:Hy.
    + rewrite elem_of_cons, IH. split.
      * intros [->|(Hk & x & Hx & HP)].
        -- split; [done|]. exists y. by rewrite Nat.sub_diag.
        -- split; [lia|]. exists x. split; [|done].
           by replace (i - k)%nat with (S (i - S k)) by lia.
      * intros (Hk & x & Hx & HP). destruct (decide (i = k)) as [->|Hne]; [by left|].
        right. split; [lia|]. exists x. split; [|done].
        by replace (i - k)%nat with (S (i - S k)) in Hx by lia.
    + rewrite IH. split.
      * intros (Hk & x & Hx & HP). split; [lia|]. exists x. split; [|done].
        by replace (i - k)%nat with (S (i - S k)) by lia.
      * intros (Hk & x & Hx & HP). destruct (decide (i = k)) as [->|Hne].
        { rewrite Nat.sub_diag in Hx. simpl in Hx. congruence. }
        split; [lia|]. exists x. split; [|done].
        by replace (i - k)%nat with (S (i - S k)) in Hx by lia.
Qed.


Section rows.
Context `{PyText}.

Lemma length_kept_rows raw : length (kept_rows raw) = length (valid_times raw).
Proof.
  unfold kept_rows. rewrite length_filter_mask, count_valid_times; [done|].
  by rewrite length_seq, length_fmap.
Qed.

Lemma row_order_perm raw : row_order raw ≡ₚ kept_rows raw.
Proof.
  unfold row_order. rewrite argsort_perm, length_fmap, <- length_kept_rows.
  by rewrite seq_nth_fmap.
Qed.

Lemma kept_rows_elem raw i :
  i ∈ kept_rows raw <-> exists ns, (to_datetime <$> raw) !! i = Some (Time ns).
Proof.
  unfold kept_rows.
  rewrite <- (length_fmap to_datetime raw), filter_mask_seq_elem.
  rewrite Nat.sub_0_r. split.
  - intros (_ & x & Hx & Hv). rewrite Hx.
    apply list_lookup_fmap_Some_1 in Hx as (r & -> & _).
    destruct (to_datetime_cases r) as [[t Ht]|Ht]; rewrite Ht in *; [by exists t|done].
  - intros (ns & Hns). split; [lia|]. by exists (Time ns).
Qed.

Lemma order_in_range raw :
  Forall (fun j => (j < length (valid_times raw))%nat)
    (argsort (Time <$> valid_times raw)).
Proof.
  apply Forall_forall. intros j Hj%argsort_lt. by rewrite length_fmap in Hj.
Qed.


Lemma sorted_rows_fmap raw (g : cell -> cell) w :
  length w = length (valid_times raw) ->
  sorted_rows raw (g <$> w) = g <$> sorted_rows raw w.
Proof.
  intros Hlen. apply take_rows_fmap. rewrite Hlen. apply order_in_range.
Qed.

Lemma surviving_fmap raw (g : cell -> cell) v :
  surviving raw (g <$> v) = g <$> surviving raw v.
Proof. apply filter_mask_fmap. Qed.


Lemma surviving_times raw : surviving raw (to_datetime <$> raw) = Time <$> valid_times raw.
Proof. unfold surviving. rewrite filter_mask_self. apply filter_valid_times. Qed.

End rows.

(** ** The columns of the output, from the raw frame *)

Lemma written_insert t : t ∈ written_columns <-> t ∈ insert_columns.
Proof.
  assert (H1 : Forall (fun t => t ∈ insert_columns) written_columns).
  { apply (bool_decide_unpack _). by vm_compute. }
  assert (H2 : Forall (fun t => t ∈ written_columns) insert_columns).
  { apply (bool_decide_unpack _). by vm_compute. }
  rewrite Forall_forall in H1, H2. split; auto.
Qed.

Section temporal_fields.
Context `{PyText}.

Lemma derive_temporal_fields df df1 :
  derive_temporal df = inr df1 ->
  exists dt, get_col "datetime_utc" df1 = Some dt /\
    get_col "year" df1 = Some (dt_int Calendar.year_of <$> dt) /\
    get_col "month" df1 = Some (dt_int Calendar.month_of <$> dt) /\
    get_col "day" df1 = Some (dt_int Calendar.day_of <$> dt) /\
    get_col "hour" df1 = Some (dt_int Calendar.hour_of <$> dt) /\
    get_col "date" df1 = Some (dt_date <$> dt) /\
    get_col "month_name" df1 = Some (dt_month_name <$> dt).
Proof.
  unfold derive_temporal.
  destruct (find_datetime_col (column_names df)) as [c|] eqn:Hf; [|done].
  intros Hd. inv_bind Hd as d0 Hd0. inv_bind Hd as dt Hdt.
  apply assign_from_inr in Hd0 as (raw & Hraw & ->).
  apply getitem_inr in Hdt. rewrite get_set_col_eq in Hdt. injection Hdt as <-.
  destruct (count_valid (to_datetime <$> raw) =? 0)%nat eqn:Hv; [done|].
  inv_bind Hd as d1 Hd1. inv_bind Hd as d2 Hd2. inv_bind Hd as d3 Hd3.
  inv_bind Hd as d4 Hd4. inv_bind Hd as d5 Hd5.
  apply assign_from_inr in Hd1 as (v1 & Hv1 & ->).
  rewrite get_set_col_eq in Hv1. injection Hv1 as <-.
  apply assign_from_inr in Hd2 as (v2 & Hv2 & ->).
  rewrite get_set_col_ne, get_set_col_eq in Hv2 by done. injection Hv2 as <-.
  apply assign_from_inr in Hd3 as (v3 & Hv3 & ->).
  rewrite !get_set_col_ne, get_set_col_eq in Hv3 by done. injection Hv3 as <-.
  apply assign_from_inr in Hd4 as (v4 & Hv4 & ->).
  rewrite !get_set_col_ne, get_set_col_eq in Hv4 by done. injection Hv4 as <-.
  apply assign_from_inr in Hd5 as (v5 & Hv5 & ->).
  rewrite !get_set_col_ne, get_set_col_eq in Hv5 by done. injection Hv5 as <-.
  apply assign_from_inr in Hd as (v6 & Hv6 & ->).
  rewrite !get_set_col_ne, get_set_col_eq in Hv6 by done. injection Hv6 as <-.
  exists (to_datetime <$> raw).
  split_and!; repeat (rewrite get_set_col_ne by done); by rewrite get_set_col_eq.
Qed.

Lemma clean_stages df out :
  clean_and_transform_data df = inr out ->
  exists c raw df1 df2 df3 df4 df5 df6 df7,
    derive_temporal df = inr df1 /\
    stages df c raw df1 df2 df3 df4 df5 df6 df7 out.
Proof.
  unfold clean_and_transform_data. intros Hc.
  inv_bind Hc as df1 H1. inv_bind Hc as df2 H2. inv_bind Hc as df3 H3.
  inv_bind Hc as df4 H4. inv_bind Hc as df5 H5. inv_bind Hc as df6 H6.
  inv_bind Hc as df7 H7. pose proof H1 as H1'.
  apply derive_temporal_inr in H1 as (c & raw & Hf & Hg & Hv & Hdt & Hev).
  exists c, raw, df1, df2, df3, df4, df5, df6, df7. split; [done|]. by split.
Qed.

End temporal_fields.

Section out_columns.
Context `{PyText}.
Context (df : DataFrame) (c : string) (raw : list cell).
Context (df1 df2 df3 df4 df5 df6 df7 out : DataFrame).
Context (Hst : stages df c raw df1 df2 df3 df4 df5 df6 df7 out).

Lemma run_sorted t : get_col t out = sorted_rows raw <$> get_col t df7.
Proof. apply (run_out _ _ _ _ _ _ _ _ _ _ _ Hst). Qed.

Lemma run_surviving t : get_col t df5 = surviving raw <$> get_col t df4.
Proof. apply (run_df5 _ _ _ _ _ _ _ _ _ _ _ Hst). Qed.







Lemma temporal_col4 t : t ∈ temporal_columns -> get_col t df4 = get_col t df1.
Proof.
  intros Ht. apply (ev_frame _ _ _ (run_middle _ _ _ _ _ _ _ _ _ _ _ Hst)).
  revert t Ht. apply Forall_forall. apply (bool_decide_unpack _). by vm_compute.
Qed.

Lemma temporal_not_imputed t : t ∈ temporal_columns -> t ∉ impute_targets.
Proof.
  revert t. apply Forall_forall. apply (bool_decide_unpack _). by vm_compute.
Qed.

(** A column computed from the timestamps stays computed from them. *)
Lemma temporal_out t (g : cell -> cell) :
  t ∈ temporal_columns ->
  get_col t df1 = Some (g <$> (to_datetime <$> raw)) ->
  get_col t out
  = Some (g <$> sorted_rows raw (Time <$> valid_times raw)).
Proof.
  intros Ht H1. rewrite run_sorted.
  rewrite (ev_frame _ _ _ (run_impute _ _ _ _ _ _ _ _ _ _ _ Hst))
    by (by apply temporal_not_imputed).
  rewrite run_surviving, (temporal_col4 t Ht), H1. simpl. f_equal.
  rewrite surviving_fmap, surviving_times.
  apply sorted_rows_fmap. by rewrite length_fmap.
Qed.

End out_columns.

(** ** Filling with the median *)





Section arranged.
Context `{PyText}.

Lemma row_order_lt raw i : i ∈ row_order raw -> (i < length raw)%nat.
Proof.
  rewrite row_order_perm, kept_rows_elem. intros (ns & Hns).
  apply lookup_lt_Some in Hns. by rewrite length_fmap in Hns.
Qed.


Lemma arranged_elem raw v x :
  length v = length raw -> x ∈ arranged raw v -> x ∈ v.
Proof.
  intros Hlen (i & -> & Hi)%list_elem_of_fmap.
  apply row_order_lt in Hi. rewrite <- Hlen in Hi.
  apply lookup_lt_is_Some in Hi as [y Hy].
  rewrite (nth_lookup_Some _ _ _ _ Hy). by eapply list_elem_of_lookup_2.
Qed.


End arranged.

(** ** What a run that raises has met *)

Lemma foldM_inl {A B} (f : B -> A -> result B) l b e :
  foldM_result f l b = inl e ->
  exists pre x post b', l = pre ++ x :: post /\
    foldM_result f pre b = inr b' /\ f b' x = inl e.
Proof.
  revert b. induction l as [|x l IH]; intros b Hf; simpl in Hf; [done|].
  destruct (f b x) as [e'|b'] eqn:Hx; simpl in Hf.
  - injection Hf as ->. by exists [], x, l, b.
  - destruct (IH b' Hf) as (pre & y & post & b'' & -> & Hpre & Hy).
    exists (x :: pre), y, post, b''. split_and!; [done| |done].
    simpl. by rewrite Hx.
Qed.

Lemma mapM_result_inl {A B} (f : A -> result B) l e :
  mapM_result f l = inl e -> exists x, x ∈ l /\ f x = inl e.
Proof.
  induction l as [|x l IH]; simpl; [done|].
  destruct (f x) as [e'|y] eqn:Hx; simpl.
  - intros [= ->]. exists x. split; [left|done].
  - destruct (mapM_result f l) as [e'|ys]; simpl; [|done].
    intros [= ->]. destruct (IH eq_refl) as (z & Hz & Hfz).
    exists z. split; [by right|done].
Qed.

Lemma getitem_inl df c e : getitem df c = inl e -> get_col c df = None /\ e = KeyError c.
Proof. unfold getitem. destruct (get_col c df); [done|]. by intros [= <-]. Qed.

Lemma assign_from_inl src dst g df e :
  assign_from src dst g df = inl e -> get_col src df = None /\ e = KeyError src.
Proof.
  unfold assign_from. destruct (getitem df src) as [e'|v] eqn:Hg; simpl; [|done].
  intros [= ->]. by apply getitem_inl.
Qed.

Lemma median_inl v e :
  median v = inl e ->
  e = TypeError "could not convert to numeric" /\
  exists x, x ∈ v /\ ~ numeric_or_missing x.
Proof.
  unfold median.
  destruct (mapM_result numeric_value _) as [e'|xs] eqn:Hm; simpl.
  - intros [= ->]. apply mapM_result_inl in Hm as (x & Hx & Hnum).
    apply list_elem_of_filter in Hx as [Hna Hx].
    split; [destruct x; simpl in Hnum; try done; by injection Hnum as <-|].
    exists x. split; [done|]. destruct x; simpl in *; try done; by intros ?.
  - by destruct xs.
Qed.

Lemma evolves_keeps W df df' c : evolves W df df' -> c ∈ column_names df -> c ∈ column_names df'.
Proof.
  intros [_ _ _ (extra & -> & _)] Hc. apply elem_of_app. by left.
Qed.

Section raises.
Context `{PyText}.

Lemma astype_int_inl r e :
  astype_int (fillna0 r) = inl e ->
  e = ValueError "invalid literal for int() with base 10" \/
  e = TypeError "int() argument must be a string or a number".
Proof.
  destruct r; simpl; try done; try (intros [= <-]; by right).
  destruct (py_int s); [done|]. intros [= <-]. by left.
Qed.

Lemma map_numeric_inl cm d x e :
  map_numeric cm d x = inl e ->
  exists a, cm !! normalize x.1 = Some a /\ a ∉ column_names d.
Proof.
  unfold map_numeric. destruct (cm !! normalize x.1) as [a|]; [|done].
  intros [Hn _]%assign_from_inl. exists a. split; [done|]. by apply get_col_None.
Qed.

Lemma map_categorical_inl cm d x e :
  map_categorical cm d x = inl e ->
  exists a, cm !! normalize x.1 = Some a /\ a ∉ column_names d.
Proof.
  unfold map_categorical. destruct (cm !! normalize x.1) as [a|]; [|done].
  destruct (assign_from a x.2 strip_text d) as [e'|d'] eqn:Ha; simpl.
  - intros _. apply assign_from_inl in Ha as [Hn _].
    exists a. split; [done|]. by apply get_col_None.
  - intros [Hn _]%assign_from_inl. apply assign_from_inr in Ha as (v & _ & ->).
    by rewrite get_set_col_eq in Hn.
Qed.

Lemma map_event_inl cm d col e :
  map_event cm d col = inl e ->
  exists a, cm !! PyStr.lower col = Some a /\
    (a ∉ column_names d \/
     exists v r, get_col a d = Some v /\ r ∈ v /\ astype_int (fillna0 r) = inl e).
Proof.
  unfold map_event. destruct (cm !! PyStr.lower col) as [a|]; [|done].
  intros He. exists a. split; [done|].
  destruct (getitem d a) as [e'|v] eqn:Hg; simpl in He.
  - left. apply getitem_inl in Hg as [Hn _]. by apply get_col_None.
  - right. apply getitem_inr in Hg.
    destruct (mapM_result astype_int (fillna0 <$> v)) as [e'|fl] eqn:Hm;
      simpl in He; [|done].
    injection He as ->. apply mapM_result_inl in Hm as (x & Hx & Hconv).
    apply list_elem_of_fmap in Hx as (r & -> & Hr). by exists v, r.
Qed.

Lemma impute_critical_inl d col e :
  impute_critical d col = inl e ->
  exists v, get_col col d = Some v /\ median v = inl e.
Proof.
  pose proof (impute_critical_cases d col) as Hc.
  destruct (get_col col d) as [v|]; [|by rewrite Hc].
  destruct (0 <? count_na v)%nat; rewrite Hc; [|done].
  destruct (median v) as [e'|m] eqn:Hm; simpl; [|done].
  intros [= ->]. by exists v.
Qed.

Lemma impute_other_inl d col e :
  impute_other d col = inl e ->
  exists v, get_col col d = Some v /\ median v = inl e.
Proof.
  pose proof (impute_other_cases d col) as Hc.
  destruct (get_col col d) as [v|]; [|by rewrite Hc].
  destruct (0 <? count_na v)%nat; rewrite Hc; [|done].
  destruct (median v) as [e'|m] eqn:Hm; simpl; [|done].
  intros [= ->]. by exists v.
Qed.

Lemma derive_temporal_inl df e :
  derive_temporal df = inl e ->
  (e = SchemaError /\ find_datetime_col (column_names df) = None) \/
  (e = DataQualityError /\
   exists c raw, find_datetime_col (column_names df) = Some c /\
     get_col c df = Some raw /\ count_valid (to_datetime <$> raw) = 0%nat).
Proof.
  unfold derive_temporal.
  destruct (find_datetime_col (column_names df)) as [c|] eqn:Hf.
  - intros Hd. right.
    assert (Hc : c ∈ column_names df).
    { apply find_datetime_col_Some in Hf as (pre & post & -> & _).
      apply elem_of_app. right. left. }
    apply get_col_is_Some in Hc as [raw Hraw].
    rewrite (assign_from_Some _ _ _ _ _ Hraw) in Hd. simpl in Hd.
    unfold getitem at 1 in Hd. rewrite get_set_col_eq in Hd. simpl in Hd.
    destruct (count_valid (to_datetime <$> raw) =? 0)%nat eqn:Hv.
    + injection Hd as <-. apply Nat.eqb_eq in Hv. split; [done|]. by exists c, raw.
    + exfalso. revert Hd.
      repeat (erewrite assign_from_Some;
        [simpl|repeat (rewrite get_set_col_ne by done); apply get_set_col_eq]).
      done.
  - intros [= <-]. by left.
Qed.

End raises.

Lemma bind_inl_intro {A B} (m : result A) (k : A -> result B) (e : Exception) :
  m = inl e -> m ≫= k = inl e.
Proof. by intros ->. Qed.

Lemma NoDup_middle_elem {A} (pre post : list A) x :
  NoDup (pre ++ x :: post) -> x ∉ pre.
Proof.
  intros (_ & Hd & _)%NoDup_app Hin. apply (Hd x Hin). left.
Qed.

Section raised.
Context `{PyText}.

(** The numeric and categorical turns cannot raise on a frame that still
    has the columns of the dict. *)
Lemma numeric_stage_returns names d :
  (forall x, x ∈ names -> x ∈ column_names d) ->
  exists d', foldM_result (map_numeric (col_mapping names)) numeric_columns d = inr d'.
Proof.
  intros Hsub.
  destruct (foldM_result _ numeric_columns d) as [e|d'] eqn:Hf; [|by eexists].
  exfalso. apply foldM_inl in Hf as (pre & x & post & d0 & _ & Hpre & Hx).
  apply map_numeric_inl in Hx as (a & Ha & Hn). apply Hn.
  apply (foldM_evolves _ snd) in Hpre; [|apply map_numeric_evolves].
  apply (evolves_keeps _ _ _ _ Hpre). apply Hsub.
  by apply col_mapping_elem in Ha as [? _].
Qed.

Lemma categorical_stage_returns names d :
  (forall x, x ∈ names -> x ∈ column_names d) ->
  exists d', foldM_result (map_categorical (col_mapping names)) categorical_columns d
             = inr d'.
Proof.
  intros Hsub.
  destruct (foldM_result _ categorical_columns d) as [e|d'] eqn:Hf; [|by eexists].
  exfalso. apply foldM_inl in Hf as (pre & x & post & d0 & _ & Hpre & Hx).
  apply map_categorical_inl in Hx as (a & Ha & Hn). apply Hn.
  apply (foldM_evolves _ snd) in Hpre; [|apply map_categorical_evolves].
  apply (evolves_keeps _ _ _ _ Hpre). apply Hsub.
  by apply col_mapping_elem in Ha as [? _].
Qed.

End raised.

(** ** The rows the store writes *)

Lemma keyed_mapM_keys {V} (g : string -> result V) (keys : list string) row :
  mapM_result (fun k => v ← g k; mret (k, v)) keys = inr row -> row.*1 = keys.
Proof.
  revert row. induction keys as [|k0 keys IH]; intros row Hm; simpl in Hm.
  { by injection Hm as <-. }
  inv_bind Hm as p Hp. inv_bind Hm as row' Hrow'. injection Hm as <-.
  inv_bind Hp as v0 Hv0. injection Hp as <-. csimpl. f_equal. by apply IH.
Qed.

Lemma row_get_lookup df i k d v x :
  get_col k df = Some v -> v !! i = Some x -> row_get df i k d = x.
Proof. intros Hv Hx. unfold row_get. rewrite Hv. by apply nth_lookup_Some. Qed.

Section stored.
Context `{PyText}.

Lemma store_data_inr table df table' :
  store_data table df = inr table' ->
  exists records rows, table' = table ++ rows /\
    Forall2 (fun i r => make_record df i = inr r) (seq 0 (nrows df)) records /\
    Forall2 (fun r row => insert_row r = inr row) records rows.
Proof.
  unfold store_data. intros Hs. inv_bind Hs as records Hrec.
  inv_bind Hs as rows Hrows. injection Hs as <-.
  exists records, rows. split_and!; [done|..]; by apply mapM_result_Forall2.
Qed.

Lemma stored_row_at table df rows i row :
  store_data table df = inr (table ++ rows) -> rows !! i = Some row ->
  (i < nrows df)%nat /\
  exists r, make_record df i = inr r /\ insert_row r = inr row.
Proof.
  intros (records & rows' & Heq & Hrec & Hrows)%store_data_inr Hi.
  apply app_inv_head in Heq as <-.
  destruct (Forall2_lookup_r _ _ _ _ _ Hrows Hi) as (r & Hr & Hins).
  destruct (Forall2_lookup_r _ _ _ _ _ Hrec Hr) as (j & Hj & Hmk).
  apply lookup_seq in Hj as [-> Hlt]. simpl in *. split; [done|]. by exists r.
Qed.

Lemma insert_columns_split :
  insert_columns = "datetime_utc" :: "date" :: plain_fields ++ event_fields.
Proof. reflexivity. Qed.

Lemma stored_field df i r row k d :
  make_record df i = inr r -> insert_row r = inr row ->
  (k ∈ plain_fields /\ d = PyNone) \/ (k ∈ event_fields /\ d = Int 0) ->
  exists y, bind_param (row_get df i k d) = inr y /\ assoc_get k row = Some y.
Proof.
  intros Hmk Hins Hk.
  apply make_record_fields in Hmk as (_ & _ & Hplain & Hevent).
  assert (Hin : k ∈ insert_columns).
  { rewrite insert_columns_split. do 2 right. apply elem_of_app.
    destruct Hk as [[? _]|[? _]]; auto. }
  destruct (keyed_mapM _ _ _ Hins k Hin) as (y & Hy & Hget).
  exists y. split; [|done]. unfold record_param in Hy.
  destruct Hk as [[Hk ->]|[Hk ->]].
  - by rewrite (Hplain k Hk) in Hy.
  - by rewrite (Hevent k Hk) in Hy.
Qed.



End stored.

(** ** The cells of the output *)




Section out_cells.
Context `{PyText}.
Context (df : DataFrame) (c : string) (raw : list cell).
Context (df1 df2 df3 df4 df5 df6 df7 out : DataFrame).
Context (Hst : stages df c raw df1 df2 df3 df4 df5 df6 df7 out).
Context (Hwf : wf_df df).



End out_cells.


Section storable.
Context `{PyText}.






End storable.

Section raise_cases.
Context `{PyText}.

(** The four ways in which the pipeline raises. *)
Lemma clean_inl_cases df e :
  clean_and_transform_data df = inl e ->
  (e = SchemaError /\ find_datetime_col (column_names df) = None) \/
  (e = DataQualityError /\
   exists c raw, find_datetime_col (column_names df) = Some c /\
     get_col c df = Some raw /\ count_valid (to_datetime <$> raw) = 0%nat) \/
  (exists kind a va r, kind ∈ boolean_columns /\
     col_mapping (column_names df) !! PyStr.lower kind = Some a /\
     get_col a df = Some va /\ r ∈ va /\ astype_int (fillna0 r) = inl e) \/
  (e = TypeError "could not convert to numeric" /\
   exists t va r, t ∈ impute_targets /\ get_col t df = Some va /\ r ∈ va /\
     ~ numeric_or_missing r).
Proof.
  intros Hrun.
  unfold clean_and_transform_data in Hrun.
  destruct (derive_temporal df) as [e1|df1] eqn:H1.
  { rewrite (bind_inl_intro _ _ _ eq_refl) in Hrun. injection Hrun as ->.
    apply derive_temporal_inl in H1 as [?|?]; auto. }
  rewrite (bind_inr_intro _ _ _ eq_refl) in Hrun. cbv beta zeta in Hrun.
  right. right.
  pose proof H1 as H1'.
  apply derive_temporal_inr in H1' as (c & raw & Hf & Hg & Hv & Hdt1 & E01).
  destruct (numeric_stage_returns (column_names df1) df1) as [df2 H2]; [done|].
  rewrite (bind_inr_intro _ _ _ H2) in Hrun.
  pose proof (numeric_stage_evolves _ _ _ H2) as E12.
  destruct (categorical_stage_returns (column_names df1) df2) as [df3 H3].
  { intros x Hx. by apply (evolves_keeps _ _ _ _ E12). }
  rewrite (bind_inr_intro _ _ _ H3) in Hrun.
  pose proof (categorical_stage_evolves _ _ _ H3) as E23.
  set (cm := col_mapping (column_names df1)) in *.
  (* the event flags *)
  destruct (foldM_result (map_event cm) boolean_columns df3) as [e4|df4] eqn:H4.
  { rewrite (bind_inl_intro _ _ _ eq_refl) in Hrun. injection Hrun as ->. left.
    apply foldM_inl in H4 as (pre & kind & post & d0 & Hl & Hpre & Hx).
    assert (Hkind : kind ∈ boolean_columns).
    { rewrite Hl. apply elem_of_app. right. left. }
    apply (foldM_evolves _ event_name) in Hpre; [|apply map_event_evolves].
    apply map_event_inl in Hx as (a & Ha & Hx).
    pose proof (resolved_not_written _ _ _ (event_key kind Hkind) Ha) as Hw.
    assert (Hsame : get_col a d0 = get_col a df).
    { rewrite (ev_frame _ _ _ Hpre), (ev_frame _ _ _ E23), (ev_frame _ _ _ E12),
        (ev_frame _ _ _ E01); [done|..].
      - intros Hin. by apply Hw, temporal_written.
      - intros Hin. apply Hw, middle_written. apply elem_of_app. by left.
      - intros Hin. apply Hw, middle_written. apply elem_of_app. right.
        apply elem_of_app. by left.
      - intros Hin. apply Hw, middle_written. apply elem_of_app. right.
        apply elem_of_app. right.
        apply list_elem_of_fmap in Hin as (y & -> & Hy).
        apply list_elem_of_fmap. exists y. split; [done|].
        rewrite Hl. apply elem_of_app. by left. }
    destruct Hx as [Hn|(v & r & Hv0 & Hr & Hconv)].
    - exfalso. apply Hn. apply (evolves_keeps _ _ _ _ Hpre).
      apply (evolves_keeps _ _ _ _ E23). apply (evolves_keeps _ _ _ _ E12).
      by apply col_mapping_elem in Ha as [? _].
    - exists kind, a, v, r. split_and!; [done| |congruence|done|done].
      unfold cm in Ha. by rewrite (resolve_on_raw df df1) in Ha
        by (done || by apply event_key). }
  rewrite (bind_inr_intro _ _ _ eq_refl) in Hrun.
  pose proof (event_stage_evolves _ _ _ H4) as E34.
  (* the rows without a timestamp *)
  assert (Hdt4 : get_col "datetime_utc" df4 = Some (to_datetime <$> raw)).
  { rewrite (ev_frame _ _ _ E34), (ev_frame _ _ _ E23), (ev_frame _ _ _ E12);
      [done|not_in_list..]. }
  destruct (dropna_subset_Some _ _ _ Hdt4) as [df5 H5].
  rewrite (bind_inr_intro _ _ _ H5) in Hrun. pose proof H5 as H5'.
  apply dropna_subset_inr in H5' as (dt & Hdt & _ & Hcols5 & _).
  rewrite Hdt4 in Hdt. injection Hdt as <-.
  (* a column of the imputer that does not reduce comes from the raw frame *)
  assert (Hraw : forall t v5 x, t ∈ impute_targets -> get_col t df5 = Some v5 ->
            x ∈ v5 -> ~ numeric_or_missing x ->
            exists va, get_col t df = Some va /\ x ∈ va).
  { intros t v5 x Ht Hv5 Hx Hnot. rewrite Hcols5 in Hv5.
    destruct (get_col t df4) as [v4|] eqn:Hv4; [|done].
    injection Hv5 as <-. apply filter_mask_elem in Hx.
    destruct (impute_target_numeric t Ht) as (en & Hen & <-).
    assert (H42 : get_col en.2 df4 = get_col en.2 df2).
    { pose proof NoDup_middle_targets as Hnd. unfold middle_targets in Hnd.
      apply NoDup_app in Hnd as (_ & Hnd & _).
      assert (Ht2 : en.2 ∈ numeric_columns.*2) by (apply list_elem_of_fmap; eauto).
      rewrite (ev_frame _ _ _ E34), (ev_frame _ _ _ E23); [done|..].
      - intros Hin. apply (Hnd _ Ht2). apply elem_of_app. by left.
      - intros Hin. apply (Hnd _ Ht2). apply elem_of_app. by right. }
    pose proof (numeric_stage_raw df df1 df2 en E01 H2 Hen) as Hcol.
    rewrite <- H42, Hv4 in Hcol.
    destruct (col_mapping (column_names df) !! normalize en.1) as [a|].
    - destruct Hcol as (va & _ & [= ->]). exfalso. apply Hnot.
      apply list_elem_of_fmap in Hx as (y & -> & _). apply to_numeric_numeric.
    - exists v4. by split. }
  (* temperature, humidity, pressure *)
  destruct (foldM_result impute_critical critical_columns df5) as [e6|df6] eqn:H6.
  { rewrite (bind_inl_intro _ _ _ eq_refl) in Hrun. injection Hrun as ->. right.
    apply foldM_inl in H6 as (pre & t & post & d0 & Hl & Hpre & Hx).
    assert (Ht : t ∈ critical_columns).
    { rewrite Hl. apply elem_of_app. right. left. }
    apply (foldM_evolves _ id) in Hpre; [|apply impute_critical_evolves].
    rewrite list_fmap_id in Hpre.
    apply impute_critical_inl in Hx as (v & Hv0 & Hmed).
    apply median_inl in Hmed as (-> & x & Hx & Hnot). split; [done|].
    rewrite (ev_frame _ _ _ Hpre) in Hv0.
    2:{ apply NoDup_middle_elem with post. rewrite <- Hl.
        apply (bool_decide_unpack _). by vm_compute. }
    assert (Hti : t ∈ impute_targets) by (apply elem_of_app; by left).
    destruct (Hraw t v x) as (va & Hva & Hxa); [done..|]. by exists t, va, x. }
  rewrite (bind_inr_intro _ _ _ eq_refl) in Hrun.
  pose proof (critical_stage_evolves _ _ H6) as E56.
  (* the other numeric fields *)
  destruct (foldM_result impute_other other_numeric df6) as [e7|df7] eqn:H7.
  { rewrite (bind_inl_intro _ _ _ eq_refl) in Hrun. injection Hrun as ->. right.
    apply foldM_inl in H7 as (pre & t & post & d0 & Hl & Hpre & Hx).
    assert (Ht : t ∈ other_numeric).
    { rewrite Hl. apply elem_of_app. right. left. }
    apply (foldM_evolves _ id) in Hpre; [|apply impute_other_evolves].
    rewrite list_fmap_id in Hpre.
    apply impute_other_inl in Hx as (v & Hv0 & Hmed).
    apply median_inl in Hmed as (-> & x & Hx & Hnot). split; [done|].
    rewrite (ev_frame _ _ _ Hpre), (ev_frame _ _ _ E56) in Hv0.
    2:{ intros Hin. by apply (critical_not_other t). }
    2:{ apply NoDup_middle_elem with post. rewrite <- Hl.
        apply (bool_decide_unpack _). by vm_compute. }
    assert (Hti : t ∈ impute_targets) by (apply elem_of_app; by right).
    destruct (Hraw t v x) as (va & Hva & Hxa); [done..|]. by exists t, va, x. }
  rewrite (bind_inr_intro _ _ _ eq_refl) in Hrun.
  pose proof (other_stage_evolves _ _ H7) as E67.
  (* the sort *)
  exfalso.
  assert (Hdt7 : is_Some (get_col "datetime_utc" df7)).
  { rewrite (ev_frame _ _ _ E67), (ev_frame _ _ _ E56), Hcols5, Hdt4;
      [by eexists|not_in_list..]. }
  destruct Hdt7 as [keys Hkeys].
  destruct (sort_values_Some _ _ _ Hkeys) as [out Hout]. congruence.
Qed.

End raise_cases.

(** ** Folding names *)











Lemma is_datetime_name_keys col :
  is_datetime_name col = true <->
  normalize col = "datetimeutc" \/ normalize col = "datetime".
Proof.
  unfold is_datetime_name. rewrite bool_decide_eq_true.
  change (normalize_variant <$> possible_datetime_cols)
    with ["datetimeutc"; "datetimeutc"; "datetimeutc"; "datetime"; "datetime"].
  rewrite !elem_of_cons, elem_of_nil. tauto.
Qed.

(** ** The order of SQLite values *)

Lemma string_leb_trans s t u :
  String.leb s t = true -> String.leb t u = true -> String.leb s u = true.
Proof.
  unfold String.leb. revert t u.
  induction s as [|a s IH]; intros [|b t] [|c u]; simpl; try done.
  unfold Ascii.compare.
  destruct (N.compare_spec (N_of_ascii a) (N_of_ascii b)) as [Hab|Hab|Hab];
    destruct (N.compare_spec (N_of_ascii b) (N_of_ascii c)) as [Hbc|Hbc|Hbc];
    destruct (N.compare_spec (N_of_ascii a) (N_of_ascii c)) as [Hac|Hac|Hac];
    try done; try lia.
  apply IH.
Qed.

Lemma Qle_bool_total x y : Qle_bool x y = true \/ Qle_bool y x = true.
Proof.
  rewrite !Qle_bool_iff. destruct (Qlt_le_dec x y) as [Hlt|Hle]; [left|by right].
  by apply Qlt_le_weak.
Qed.

Global Instance sql_le_total : Total Sql.le.
Proof.
  intros a b. unfold Sql.le, Sql.leb.
  destruct a, b; simpl; auto; rewrite !Is_true_true;
    first [apply Qle_bool_total|apply String.leb_total].
Qed.

Global Instance sql_le_trans : Transitive Sql.le.
Proof.
  intros a b c. unfold Sql.le, Sql.leb.
  destruct a, b, c; simpl; try done;
    rewrite !Is_true_true; try (rewrite !Qle_bool_iff; apply Qle_trans).
  apply string_leb_trans.
Qed.

Lemma sql_eqb_le a b : Sql.eqb a b = true <-> Sql.le a b /\ Sql.le b a.
Proof. unfold Sql.eqb, Sql.le. by rewrite andb_true_iff, !Is_true_true. Qed.

Lemma sql_eqb_refl a : Sql.eqb a a = true.
Proof. apply sql_eqb_le. destruct (total Sql.le a a); by split. Qed.

Lemma sql_eqb_trans a b c :
  Sql.eqb a b = true -> Sql.eqb b c = true -> Sql.eqb a c = true.
Proof.
  rewrite !sql_eqb_le. intros [H1 H2] [H3 H4]. split; by etrans.
Qed.

Lemma sql_distinct_elem l y : y ∈ Sql.distinct l -> y ∈ l.
Proof.
  induction l as [|x l IH]; simpl; [done|].
  intros [->|Hy]%elem_of_cons; [left|right].
  apply list_elem_of_filter in Hy as [_ Hy]. by apply IH.
Qed.

Lemma sql_distinct_covers l x :
  x ∈ l -> exists y, y ∈ Sql.distinct l /\ Sql.eqb y x = true.
Proof.
  induction l as [|x0 l IH]; [by intros ?%elem_of_nil|]. simpl.
  intros [->|Hx]%elem_of_cons.
  - exists x0. split; [left|apply sql_eqb_refl].
  - destruct (IH Hx) as (y & Hy & Hyx).
    destruct (Sql.eqb x0 y) eqn:Hxy.
    + exists x0. split; [left|by eapply sql_eqb_trans].
    + exists y. split; [|done]. right. apply list_elem_of_filter. by split.
Qed.

Lemma sql_distinct_sorted l :
  StronglySorted Sql.le l -> StronglySorted Sql.lt (Sql.distinct l).
Proof.
  induction 1 as [|x l Hs IH Hhd]; simpl; constructor.
  - clear Hhd. induction IH as [|y k Hk IHk Hy]; [constructor|].
    rewrite filter_cons. case_decide; [|done].
    constructor; [done|]. apply Forall_forall. intros z Hz.
    apply list_elem_of_filter in Hz as [_ Hz].
    rewrite Forall_forall in Hy. by apply Hy.
  - apply Forall_forall. intros y Hy.
    apply list_elem_of_filter in Hy as [Hne Hy].
    apply sql_distinct_elem in Hy.
    rewrite Forall_forall in Hhd. specialize (Hhd y Hy). split; [done|].
    intros Hyx. assert (Heq : Sql.eqb x y = true) by (by apply sql_eqb_le).
    congruence.
Qed.

Lemma not_null_spec v : Sql.not_null v = true <-> v <> SNull.
Proof. by destruct v. Qed.

Lemma foldl_min_step b l :
  Sql.not_null b = true -> Forall (fun v => Sql.not_null v = true) l ->
  foldl Sql.min_step b l ∈ b :: l /\
  forall x, x ∈ b :: l -> Sql.le (foldl Sql.min_step b l) x.
Proof.
  intros Hb Hl. revert b Hb. induction Hl as [|y l Hy _ IH]; intros b Hb; simpl.
  - split; [left|]. intros x ->%list_elem_of_singleton.
    destruct (total Sql.le b b); done.
  - assert (Hstep : Sql.min_step b y = if Sql.leb b y then b else y).
    { unfold Sql.min_step. by rewrite Hy, Hb. }
    rewrite Hstep. clear Hstep.
    destruct (Sql.leb b y) eqn:Hby.
    + destruct (IH b Hb) as [Hin Hle]. split.
      * apply elem_of_cons in Hin as [->|Hin]; [left|right; by right].
      * intros x [->|[->|Hx]%elem_of_cons]%elem_of_cons.
        -- apply Hle. left.
        -- trans b; [apply Hle; left|]. unfold Sql.le. by rewrite Hby.
        -- apply Hle. by right.
    + destruct (IH y Hy) as [Hin Hle]. split; [by right|].
      intros x [->|[->|Hx]%elem_of_cons]%elem_of_cons.
      * trans y; [apply Hle; left|].
        destruct (total Sql.le y b) as [?|Hc]; [done|].
        unfold Sql.le in Hc. by rewrite Hby in Hc.
      * apply Hle. left.
      * apply Hle. by right.
Qed.

Lemma foldl_max_step b l :
  Sql.not_null b = true -> Forall (fun v => Sql.not_null v = true) l ->
  foldl Sql.max_step b l ∈ b :: l /\
  forall x, x ∈ b :: l -> Sql.le x (foldl Sql.max_step b l).
Proof.
  intros Hb Hl. revert b Hb. induction Hl as [|y l Hy _ IH]; intros b Hb; simpl.
  - split; [left|]. intros x ->%list_elem_of_singleton.
    destruct (total Sql.le b b); done.
  - assert (Hstep : Sql.max_step b y = if Sql.leb y b then b else y).
    { unfold Sql.max_step. by rewrite Hy, Hb. }
    rewrite Hstep. clear Hstep.
    destruct (Sql.leb y b) eqn:Hyb.
    + destruct (IH b Hb) as [Hin Hle]. split.
      * apply elem_of_cons in Hin as [->|Hin]; [left|right; by right].
      * intros x [->|[->|Hx]%elem_of_cons]%elem_of_cons.
        -- apply Hle. left.
        -- trans b; [|apply Hle; left]. unfold Sql.le. by rewrite Hyb.
        -- apply Hle. by right.
    + destruct (IH y Hy) as [Hin Hle]. split; [by right|].
      intros x [->|[->|Hx]%elem_of_cons]%elem_of_cons.
      * trans y; [|apply Hle; left].
        destruct (total Sql.le b y) as [?|Hc]; [done|].
        unfold Sql.le in Hc. by rewrite Hyb in Hc.
      * apply Hle. left.
      * apply Hle. by right.
Qed.

Lemma sql_min_of_spec l :
  Forall (fun v => Sql.not_null v = true) l -> l <> [] ->
  Sql.min_of l ∈ l /\ forall x, x ∈ l -> Sql.le (Sql.min_of l) x.
Proof.
  intros Hl Hne. destruct l as [|b l]; [done|].
  apply Forall_cons in Hl as [Hb Hl]. unfold Sql.min_of. simpl.
  assert (Hstep : Sql.min_step SNull b = b) by (unfold Sql.min_step; by rewrite Hb).
  rewrite Hstep. by apply foldl_min_step.
Qed.

Lemma sql_max_of_spec l :
  Forall (fun v => Sql.not_null v = true) l -> l <> [] ->
  Sql.max_of l ∈ l /\ forall x, x ∈ l -> Sql.le x (Sql.max_of l).
Proof.
  intros Hl Hne. destruct l as [|b l]; [done|].
  apply Forall_cons in Hl as [Hb Hl]. unfold Sql.max_of. simpl.
  assert (Hstep : Sql.max_step SNull b = b) by (unfold Sql.max_step; by rewrite Hb).
  rewrite Hstep. by apply foldl_max_step.
Qed.

Lemma count_not_null_le k table : (Sql.count_not_null k table <= length table)%nat.
Proof. unfold Sql.count_not_null. apply length_filter. Qed.

Lemma count_not_null_app k t1 t2 :
  Sql.count_not_null k (t1 ++ t2)
  = (Sql.count_not_null k t1 + Sql.count_not_null k t2)%nat.
Proof. unfold Sql.count_not_null. by rewrite filter_app, length_app. Qed.

Lemma filter_none {A} (P : A -> Prop) `{forall x, Decision (P x)} (l : list A) :
  Forall (fun x => ~ P x) l -> filter P l = [].
Proof.
  induction 1 as [|x l Hx _ IH]; [done|]. rewrite filter_cons.
  by rewrite decide_False.
Qed.

Lemma filter_length_Forall2 {A B} (P : A -> bool) (Q : B -> bool) l k :
  Forall2 (fun a b => P a = Q b) l k ->
  length (filter (fun a => P a = true) l) = length (filter (fun b => Q b = true) k).
Proof.
  induction 1 as [|a b l k Hab _ IH]; [done|].
  rewrite !filter_cons. rewrite Hab.
  destruct (Q b); simpl; by rewrite IH.
Qed.

Section counts.
Context `{PyText}.

Lemma bind_param_not_null x y : bind_param x = inr y -> Sql.not_null y = notna x.
Proof. destruct x; simpl; try done; by intros [= <-]. Qed.

(** The rows of a stored frame have a value under a field where the frame
    has a valid cell. *)
Lemma stored_not_null_count table df rows k :
  wf_df df -> store_data table df = inr (table ++ rows) -> k ∈ plain_fields ->
  Sql.count_not_null k rows = present k df.
Proof.
  intros Hwf Hstore Hk. unfold Sql.count_not_null, present.
  assert (Hlen : length rows = nrows df).
  { apply store_data_inr in Hstore as (records & rows' & Heq & Hrec & Hrows).
    apply app_inv_head in Heq as <-.
    rewrite <- (Forall2_length _ _ _ Hrows), <- (Forall2_length _ _ _ Hrec).
    apply length_seq. }
  destruct (get_col k df) as [v|] eqn:Hv.
  - unfold count_valid.
    apply (filter_length_Forall2 (fun r => Sql.not_null (Sql.field k r)) notna).
    apply Forall2_same_length_lookup_2.
    { by rewrite Hlen, (wf_get_col _ _ _ Hwf Hv). }
    intros i row x Hrow Hx.
    destruct (stored_row_at _ _ _ _ _ Hstore Hrow) as (_ & r & Hmk & Hins).
    destruct (stored_field df i r row k PyNone Hmk Hins) as (y & Hy & Hget); [auto|].
    rewrite (row_get_lookup _ _ _ _ _ _ Hv Hx) in Hy.
    unfold Sql.field. rewrite Hget. simpl. by apply bind_param_not_null.
  - apply length_zero_iff_nil, filter_none.
    apply Forall_forall. intros row Hrow.
    apply list_elem_of_lookup in Hrow as [i Hrow].
    destruct (stored_row_at _ _ _ _ _ Hstore Hrow) as (_ & r & Hmk & Hins).
    destruct (stored_field df i r row k PyNone Hmk Hins) as (y & Hy & Hget); [auto|].
    unfold row_get in Hy. rewrite Hv in Hy. simpl in Hy. injection Hy as <-.
    unfold Sql.field. rewrite Hget. simpl. done.
Qed.

End counts.

Section temporal_out.
Context `{PyText}.

Lemma temporal_out_cols df out :
  clean_and_transform_data df = inr out ->
  exists ts : list Z,
    get_col "datetime_utc" out = Some (Time <$> ts) /\
    get_col "year" out = Some ((fun t => Int (Calendar.year_of t)) <$> ts) /\
    get_col "month" out = Some ((fun t => Int (Calendar.month_of t)) <$> ts) /\
    get_col "day" out = Some ((fun t => Int (Calendar.day_of t)) <$> ts) /\
    get_col "hour" out = Some ((fun t => Int (Calendar.hour_of t)) <$> ts) /\
    get_col "date" out = Some ((fun t => Date (Calendar.days_of t)) <$> ts) /\
    get_col "month_name" out
    = Some ((fun t => Str (Calendar.month_name_of t)) <$> ts).
Proof.
  intros Hrun.
  apply clean_stages in Hrun
    as (c & raw & df1 & df2 & df3 & df4 & df5 & df6 & df7 & H1 & Hst).
  apply derive_temporal_fields in H1
    as (dt & Hdt & Hy & Hm & Hd & Hh & Hda & Hmn).
  rewrite (st_dt _ _ _ _ _ _ _ _ _ _ _ Hst) in Hdt. injection Hdt as <-.
  destruct (sorted_times (valid_times raw)) as (ts & Hts & _ & _).
  fold (sorted_rows raw (Time <$> valid_times raw)) in Hts.
  exists ts. split_and!.
  - rewrite (run_out _ _ _ _ _ _ _ _ _ _ _ Hst),
      (run_dt7 _ _ _ _ _ _ _ _ _ _ _ Hst). simpl. by rewrite <- Hts.
  - rewrite (temporal_out _ _ _ _ _ _ _ _ _ _ _ Hst "year" _ ltac:(in_list) Hy), Hts.
    by rewrite <- list_fmap_compose.
  - rewrite (temporal_out _ _ _ _ _ _ _ _ _ _ _ Hst "month" _ ltac:(in_list) Hm), Hts.
    by rewrite <- list_fmap_compose.
  - rewrite (temporal_out _ _ _ _ _ _ _ _ _ _ _ Hst "day" _ ltac:(in_list) Hd), Hts.
    by rewrite <- list_fmap_compose.
  - rewrite (temporal_out _ _ _ _ _ _ _ _ _ _ _ Hst "hour" _ ltac:(in_list) Hh), Hts.
    by rewrite <- list_fmap_compose.
  - rewrite (temporal_out _ _ _ _ _ _ _ _ _ _ _ Hst "date" _ ltac:(in_list) Hda), Hts.
    by rewrite <- list_fmap_compose.
  - rewrite (temporal_out _ _ _ _ _ _ _ _ _ _ _ Hst "month_name" _ ltac:(in_list) Hmn), Hts.
    by rewrite <- list_fmap_compose.
Qed.

End temporal_out.

Section stored_twice.
Context `{PyText}.

(** The rows that a store adds do not depend on the table. *)
Lemma store_data_rows table df rows t2 :
  store_data table df = inr (table ++ rows) -> store_data t2 df = inr (t2 ++ rows).
Proof.
  unfold store_data. intros Hs. inv_bind Hs as records Hrec.
  inv_bind Hs as rows' Hrows. injection Hs as Heq%app_inv_head. subst rows'.
  rewrite Hrec. simpl. by rewrite Hrows.
Qed.

Lemma stored_int table out rows ts k (f : Z -> Z) i row :
  k ∈ plain_fields ->
  get_col k out = Some ((fun t => Int (f t)) <$> ts) ->
  nrows out = length ts ->
  store_data table out = inr (table ++ rows) -> rows !! i = Some row ->
  exists t, ts !! i = Some t /\ assoc_get k row = Some (SInteger (f t)).
Proof.
  intros Hk Hy Hn Hstore Hrow.
  destruct (stored_row_at _ _ _ _ _ Hstore Hrow) as (Hlt & r & Hmk & Hins).
  destruct (stored_field out i r row k PyNone Hmk Hins) as (y & Hbind & Hget); [auto|].
  destruct (lookup_lt_is_Some_2 ts i) as [t Ht]; [lia|].
  exists t. split; [done|].
  rewrite (row_get_lookup _ _ _ _ _ (Int (f t)) Hy) in Hbind
    by (by rewrite list_lookup_fmap, Ht).
  simpl in Hbind. by injection Hbind as <-.
Qed.

Lemma stored_year table out rows ts i row :
  get_col "year" out = Some ((fun t => Int (Calendar.year_of t)) <$> ts) ->
  nrows out = length ts ->
  store_data table out = inr (table ++ rows) -> rows !! i = Some row ->
  exists t, ts !! i = Some t /\ Sql.field "year" row = SInteger (Calendar.year_of t).
Proof.
  intros Hy Hn Hstore Hrow.
  destruct (stored_int table out rows ts "year" Calendar.year_of i row)
    as (t & Ht & Hget); [in_list|done..|].
  exists t. split; [done|]. unfold Sql.field. by rewrite Hget.
Qed.

End stored_twice.

Lemma available_years_lists (table : list stored_row) :
  StronglySorted Sql.lt (WeatherAPI.get_available_years table) /\
  (forall y, y ∈ WeatherAPI.get_available_years table ->
     y <> SNull /\ exists r, r ∈ table /\ Sql.field "year" r = y) /\
  (forall r, r ∈ table -> Sql.field "year" r <> SNull ->
     exists y, y ∈ WeatherAPI.get_available_years table /\
       Sql.le y (Sql.field "year" r) /\ Sql.le (Sql.field "year" r) y).
Proof.
  unfold WeatherAPI.get_available_years.
  set (years := filter (fun v => Sql.not_null v = true) (Sql.field "year" <$> table)).
  split_and!.
  - apply sql_distinct_sorted, StronglySorted_merge_sort; apply _.
  - intros y Hy%sql_distinct_elem. rewrite merge_sort_Permutation in Hy.
    apply list_elem_of_filter in Hy as [Hn Hy]. split; [by apply not_null_spec|].
    apply list_elem_of_fmap in Hy as (r & -> & Hr). by exists r.
  - intros r Hr Hn.
    assert (Hin : Sql.field "year" r ∈ merge_sort Sql.le years).
    { rewrite merge_sort_Permutation. apply list_elem_of_filter.
      split; [by apply not_null_spec|]. apply list_elem_of_fmap. by exists r. }
    destruct (sql_distinct_covers _ _ Hin) as (y & Hy & Heq).
    exists y. split; [done|]. by apply sql_eqb_le.
Qed.

(** ** The filters of the events summary *)

Lemma sql_is_integer z n : sql_is (Some (SInteger z)) n = (z =? n).
Proof.
  unfold sql_is. simpl. destruct (z =? n) eqn:Hz.
  - apply Z.eqb_eq in Hz as ->. apply Qeq_bool_refl.
  - apply not_true_iff_false. rewrite Qeq_bool_iff. intros Hq.
    apply Z.eqb_neq in Hz. apply Hz. by apply inject_Z_injective.
Qed.

Lemma events_conditions_given year month :
  WeatherAPI.events_conditions year month
  = match given year, given month with
    | None, None => ([], [])
    | Some y, None => (["year = ?"], [y])
    | None, Some m => (["month = ?"], [m])
    | Some y, Some m => (["year = ?"; "month = ?"], [y; m])
    end.
Proof.
  unfold WeatherAPI.events_conditions, WeatherAPI.add_condition, given.
  destruct year as [y|], month as [m|]; simpl;
    repeat (match goal with |- context [?z =? 0] => destruct (z =? 0) end); done.
Qed.

Lemma selected_in_period year month row t :
  assoc_get "year" row = Some (SInteger (Calendar.year_of t)) ->
  assoc_get "month" row = Some (SInteger (Calendar.month_of t)) ->
  WeatherAPI.selected (WeatherAPI.events_conditions year month) row
  = in_period year month t.
Proof.
  intros Hy Hm. rewrite events_conditions_given. unfold in_period.
  destruct (given year), (given month); unfold WeatherAPI.selected; simpl;
    rewrite ?Hy, ?Hm, ?sql_is_integer, ?andb_true_r; done.
Qed.

(** ** What the imputer leaves *)





Section imputed_out.
Context `{PyText}.
Context (df : DataFrame) (c : string) (raw : list cell).
Context (df1 df2 df3 df4 df5 df6 df7 out : DataFrame).
Context (Hst : stages df c raw df1 df2 df3 df4 df5 df6 df7 out).


End imputed_out.

(** A list of integers, as values of SQLite. *)
Lemma integers_only (ys : list sqlval) :
  (forall y, y ∈ ys -> exists z, y = SInteger z) ->
  exists zs, ys = SInteger <$> zs.
Proof.
  induction ys as [|y ys IH]; intros Hall; [by exists []|].
  destruct (Hall y) as [z ->]; [left|].
  destruct IH as [zs ->]; [intros y Hy; apply Hall; by right|].
  by exists (z :: zs).
Qed.

Lemma integers_ascending (zs : list Z) :
  StronglySorted Sql.lt (SInteger <$> zs) -> StronglySorted Z.lt zs.
Proof.
  induction zs as [|z zs IH]; csimpl; intros Hs; [constructor|].
  apply StronglySorted_inv in Hs as [Hs Hhd]. constructor; [by apply IH|].
  rewrite Forall_fmap in Hhd. eapply Forall_impl; [exact Hhd|].
  intros w [Hle Hnle]. simpl in *.
  unfold Sql.le, Sql.leb, Sql.number in Hle, Hnle. simpl in Hle, Hnle.
  rewrite Is_true_true, Qle_bool_iff, <- Zle_Qle in Hle, Hnle. lia.
Qed.

(** ** [ORDER BY] on rows, and the records of a query *)

Global Instance row_le_total keys : Total (Sql.row_le keys).
Proof.
  intros r1 r2. unfold Sql.row_le.
  induction keys as [|k keys IH]; simpl; [by left|].
  destruct (Sql.eqb (Sql.field k r1) (Sql.field k r2)) eqn:E.
  - assert (Sql.eqb (Sql.field k r2) (Sql.field k r1) = true) as ->; [|done].
    apply sql_eqb_le. apply sql_eqb_le in E. tauto.
  - assert (Sql.eqb (Sql.field k r2) (Sql.field k r1) = false) as ->.
    { apply not_true_iff_false. intros E'. apply sql_eqb_le in E'.
      apply not_true_iff_false in E. apply E, sql_eqb_le. tauto. }
    apply (total Sql.le).
Qed.

Global Instance row_le_trans keys : Transitive (Sql.row_le keys).
Proof.
  intros r1 r2 r3. unfold Sql.row_le.
  induction keys as [|k keys IH]; simpl; [done|].
  set (a := Sql.field k r1). set (b := Sql.field k r2). set (c := Sql.field k r3).
  destruct (Sql.eqb a b) eqn:Eab, (Sql.eqb b c) eqn:Ebc.
  - rewrite (sql_eqb_trans _ _ _ Eab Ebc). apply IH.
  - intros _ Hbc. apply sql_eqb_le in Eab as [Hab Hba].
    assert (Sql.eqb a c = false) as ->.
    { apply not_true_iff_false. intros [Hac Hca]%sql_eqb_le.
      apply not_true_iff_false in Ebc. apply Ebc, sql_eqb_le.
      split; [done|]. by etrans. }
    by etrans.
  - intros Hab _. apply sql_eqb_le in Ebc as [Hbc Hcb].
    assert (Sql.eqb a c = false) as ->.
    { apply not_true_iff_false. intros [Hac Hca]%sql_eqb_le.
      apply not_true_iff_false in Eab. apply Eab, sql_eqb_le.
      split; [done|]. by etrans. }
    by etrans.
  - intros Hab Hbc.
    assert (Sql.eqb a c = false) as ->.
    { apply not_true_iff_false. intros [Hac Hca]%sql_eqb_le.
      apply not_true_iff_false in Ebc. apply Ebc, sql_eqb_le.
      split; [done|]. by etrans. }
    by etrans.
Qed.






Section stored_file.
Context `{PyText}.


End stored_file.



(** * The properties of the specification *)




Example imputed_gaps :
  imputed [NaN; NaN; Float 10; NaN; Float 20; NaN]
  = Float <$> [15; 15; 10; 10; 20; 20]%Q.
Proof. vm_compute. reflexivity. Qed.

Example imputed_inner_gap : imputed [NaN; Float 10; NaN] = Float <$> [10; 10; 10]%Q.
Proof. vm_compute. reflexivity. Qed.

Example imputed_no_value : imputed [NaN; NaN; NaN] = [NaN; NaN; NaN].
Proof. vm_compute. reflexivity. Qed.

(** C2 (as stated, refuted): of two columns that fold to [tempm] the dict
    resolves the later one, not the first, and the temperature is read from
    it. *)
Lemma C2_later_column_wins :
  col_mapping (column_names twice_frame) !! "tempm" = Some "TEMP_M" /\
  first_match "tempm" (column_names twice_frame) = Some "tempm" /\
  (get_col "temperature" <$> clean_and_transform_data (H := digits_text) twice_frame)
  = inr (Some [Float 2; Float 2]).
Proof. split_and!; vm_compute; reflexivity. Qed.

(** C2 (amended): the datetime field resolves to the first column, in
    declaration order, whose name folds to a datetime variant; every field
    looked up in the column dict (numeric, categorical, event) resolves to
    the last column whose name folds to its key; a field is absent exactly
    when no column matches; and the columns the temporal stage adds before
    the dict is built take no part in the lookups. *)
Theorem C2_resolution_order `{PyText} (names : list string) (c : string) :
  (find_datetime_col names = Some c <->
     exists pre post, names = pre ++ c :: post /\ is_datetime_name c = true /\
       forall x, x ∈ pre -> is_datetime_name x = false) /\
  (find_datetime_col names = None <->
     forall x, x ∈ names -> is_datetime_name x = false) /\
  (forall key, col_mapping names !! key = Some c <->
     exists pre post, names = pre ++ c :: post /\ normalize c = key /\
       forall x, x ∈ post -> normalize x <> key) /\
  (forall key, col_mapping names !! key = None <->
     forall x, x ∈ names -> normalize x <> key) /\
  (forall df df1 key, derive_temporal df = inr df1 -> key ∈ lookup_keys ->
     col_mapping (column_names df1) !! key = col_mapping (column_names df) !! key).
Proof.
  split_and!.
  - apply find_datetime_col_Some.
  - apply find_datetime_col_None.
  - intros key. apply col_mapping_Some.
  - intros key. apply col_mapping_None.
  - intros df df1 key (c' & raw & _ & _ & _ & _ & Hev)%derive_temporal_inr Hkey.
    by apply resolve_on_raw.
Qed.

(** C3: the fill runs on the rows in file order and the sort comes after
    it.  With the reading of hour 2 last in the file and missing, the
    pipeline gives it the 30 of hour 3; sorted first, it would take the 10
    of hour 1. *)
Theorem C3_fill_precedes_sort :
  (get_col "datetime_utc" <$> clean_and_transform_data (H := digits_text) late_row_frame)
  = inr (Some (Time <$> (hour_ns <$> [1; 2; 3]))) /\
  (get_col "temperature" <$> clean_and_transform_data (H := digits_text) late_row_frame)
  = inr (Some (Float <$> [10; 30; 30]%Q)) /\
  (let times := [Time (hour_ns 1); Time (hour_ns 3); Time (hour_ns 2)] in
   imputed (take_rows (argsort times) [Float 10; Float 30; NaN])
   = Float <$> [10; 10; 30]%Q).
Proof. split_and!; vm_compute; reflexivity. Qed.










(** C7: when no column name matches a datetime variant the pipeline raises
    the schema error, whatever the frame holds, and the orchestration
    leaves the processor and the table as they were. *)
Theorem C7_no_timestamp_column `{PyText} (df : DataFrame) (sys : WeatherSystem) :
  (forall col v, col ∈ column_names df -> v ∈ possible_datetime_cols ->
     normalize col <> normalize_variant v) ->
  clean_and_transform_data df = inl SchemaError /\
  process_and_store_data_file sys df = (sys, inl SchemaError).
Proof.
  intros Hno.
  assert (Hf : find_datetime_col (column_names df) = None).
  { apply find_datetime_col_None. intros x Hx.
    apply is_datetime_name_false. intros v Hv. by apply Hno. }
  assert (Hc : clean_and_transform_data df = inl SchemaError).
  { unfold clean_and_transform_data.
    by rewrite (derive_temporal_no_column df Hf). }
  split; [done|]. unfold process_and_store_data_file. by rewrite Hc.
Qed.

(** C7, on a frame without a datetime name. *)
Lemma C7_nameless_frame :
  clean_and_transform_data (H := digits_text) nameless_frame = inl SchemaError /\
  process_and_store_data_file (H := digits_text) empty_system nameless_frame
  = (empty_system, inl SchemaError).
Proof.
  apply (C7_no_timestamp_column (H := digits_text) nameless_frame empty_system).
  intros col v Hc Hv. apply list_elem_of_In in Hc, Hv. simpl in Hc, Hv.
  intuition subst; by vm_compute.
Defined.


(** C9: the categorical coercion (text, trimmed, with the tokens "nan", ""
    and "None" turned into null) leaves an already canonical column as it
    is; every cell it produces is canonical, so applying it twice is
    applying it once. *)
Theorem C9_categorical_idempotent `{PyText} :
  (forall v : list cell, Forall canonical_text v -> categorical <$> v = v) /\
  (forall c : cell, canonical_text (categorical c)) /\
  (forall c : cell, categorical (categorical c) = categorical c).
Proof.
  assert (Hfix : forall c, canonical_text c -> categorical c = c).
  { intros c [->|(s & -> & Hs & Hn)]; [done|].
    unfold categorical, strip_text. simpl. rewrite Hs. simpl.
    by rewrite bool_decide_eq_false_2. }
  assert (Hcan : forall c, canonical_text (categorical c)).
  { intros c. unfold categorical, strip_text. simpl.
    destruct (bool_decide _) eqn:Hb; [by left|].
    apply bool_decide_eq_false in Hb. right. eexists.
    split_and!; [done|apply strip_idemp|done]. }
  split_and!; [|done|by auto].
  intros v Hv. induction Hv as [|c v Hc _ IH]; csimpl; [done|].
  by rewrite Hfix, IH.
Qed.



(** The whole run on the frame that has timestamps only: two rows are
    stored, with a NULL temperature and a zero fog flag. *)
Example stored_bare_frame :
  (fun r => (assoc_get "datetime_utc" r, assoc_get "temperature" r,
             assoc_get "fog_event" r))
    <$> weather_data
          (process_and_store_data_file (H := digits_text) empty_system bare_frame).1
  = [(Some (SText "1970-01-01T01:00:00"), Some SNull, Some (SInteger 0));
     (Some (SText "1970-01-01T02:00:00"), Some SNull, Some (SInteger 0))].
Proof. vm_compute. reflexivity. Qed.

(** * Further properties of the code *)

(** ** The names of the columns *)


Example normalize_temperature_names :
  normalize <$> ["tempm"; "TempM"; "Temp_M"; "temp m"; " TEMP_m "]
  = ["tempm"; "tempm"; "tempm"; "tempm"; "tempm"].
Proof. vm_compute. reflexivity. Qed.

(** X2: the five datetime variants fold to two keys.  The pipeline
    raises the schema error exactly when no column name folds to
    [datetimeutc] or to [datetime], and the data quality error exactly when
    a column does and none of its cells parses; no other failure is
    reported under either error. *)
Theorem X2_schema_error_iff_no_datetime_key `{PyText} (df : DataFrame) :
  (forall col, is_datetime_name col = true <->
     normalize col = "datetimeutc" \/ normalize col = "datetime") /\
  (clean_and_transform_data df = inl SchemaError <->
   forall col, col ∈ column_names df ->
     normalize col <> "datetimeutc" /\ normalize col <> "datetime") /\
  (clean_and_transform_data df = inl DataQualityError <->
   exists c raw, find_datetime_col (column_names df) = Some c /\
     get_col c df = Some raw /\ count_valid (to_datetime <$> raw) = 0%nat).
Proof.
  split; [apply is_datetime_name_keys|]. split; [|split].
  2:{ intros Hrun.
      destruct (clean_inl_cases df _ Hrun)
        as [[? _]|[[_ ?]|[(kind & a & va & r & _ & _ & _ & _ & Hconv)|[? _]]]];
        [done|done| |done].
      by apply astype_int_inl in Hconv as [?|?]. }
  2:{ intros (c & raw & Hf & Hg & Hv). unfold clean_and_transform_data.
      by rewrite (derive_temporal_no_dates df c raw Hf Hg Hv). }
  assert (Hnone : find_datetime_col (column_names df) = None <->
            forall col, col ∈ column_names df ->
              normalize col <> "datetimeutc" /\ normalize col <> "datetime").
  { rewrite find_datetime_col_None. split.
    - intros Hall col Hcol. specialize (Hall col Hcol).
      apply not_true_iff_false in Hall. rewrite is_datetime_name_keys in Hall. tauto.
    - intros Hall col Hcol. apply not_true_iff_false.
      rewrite is_datetime_name_keys. specialize (Hall col Hcol). tauto. }
  rewrite <- Hnone. split.
  - intros Hrun.
    destruct (clean_inl_cases df _ Hrun)
      as [[_ ?]|[[? _]|[(kind & a & va & r & _ & _ & _ & _ & Hconv)|[? _]]]];
      [done|done| |done].
    by apply astype_int_inl in Hconv as [?|?].
  - intros Hf. unfold clean_and_transform_data.
    by rewrite (derive_temporal_no_column df Hf).
Qed.

Example datetime_names :
  is_datetime_name <$> ["Date Time"; "DATETIME_UTC"; "datetime utc"; "date";
                        "timestamp"; "time"; "DateTimeLocal"]
  = [true; true; true; false; false; false; false].
Proof. vm_compute. reflexivity. Qed.

(** ** What makes the pipeline raise *)



(** ** The columns and the rows of the output *)

(** X4: the pipeline never removes, renames or moves a raw column.
    The columns of the output are the raw columns in their order, followed
    by the columns the pipeline created, all under canonical names; the
    seven temporal columns and the six event columns are always among
    them. *)
Theorem X4_raw_columns_are_kept `{PyText} (df out : DataFrame) :
  clean_and_transform_data df = inr out ->
  (exists extra, column_names out = column_names df ++ extra /\
     forall x, x ∈ extra -> x ∈ insert_columns) /\
  (forall t, t ∈ temporal_columns ++ (event_name <$> boolean_columns) ->
     t ∈ column_names out).
Proof.
  intros Hrun.
  apply clean_stages in Hrun
    as (c & raw & df1 & df2 & df3 & df4 & df5 & df6 & df7 & H1 & Hst).
  pose proof (st_temporal _ _ _ _ _ _ _ _ _ _ _ Hst) as E01.
  pose proof (run_middle _ _ _ _ _ _ _ _ _ _ _ Hst) as E14.
  pose proof (run_impute _ _ _ _ _ _ _ _ _ _ _ Hst) as E57.
  pose proof (st_dropna _ _ _ _ _ _ _ _ _ _ _ Hst) as H5.
  apply dropna_subset_inr in H5 as (v5 & _ & _ & _ & Hn5 & _).
  pose proof (st_sort _ _ _ _ _ _ _ _ _ _ _ Hst) as H8.
  apply sort_values_inr in H8 as (keys & _ & _ & _ & Hn8 & _).
  assert (H47 : forall t, t ∈ column_names df4 -> t ∈ column_names out).
  { intros t Ht. rewrite Hn8. apply (evolves_keeps _ _ _ _ E57). by rewrite Hn5. }
  split.
  - destruct E01 as [_ _ _ (x1 & N1 & S1)]. destruct E14 as [_ _ _ (x2 & N2 & S2)].
    destruct E57 as [_ _ _ (x3 & N3 & S3)].
    exists (x1 ++ x2 ++ x3). split.
    + rewrite Hn8, N3, Hn5, N2, N1. by rewrite <- !app_assoc.
    + intros x Hx. apply written_insert.
      apply elem_of_app in Hx as [Hx|Hx]; [by apply temporal_written, S1|].
      apply elem_of_app in Hx as [Hx|Hx]; [by apply middle_written, S2|].
      apply elem_of_app. right. apply elem_of_app. right. by apply S3.
  - intros t [Ht|Ht]%elem_of_app.
    + apply H47. apply (evolves_keeps _ _ _ _ E14).
      apply derive_temporal_fields in H1
        as (dt & Hdt & Hy & Hm & Hd & Hh & Hda & Hmn).
      apply get_col_is_Some. apply list_elem_of_In in Ht. simpl in Ht.
      repeat (destruct Ht as [<-|Ht]; [by eexists|]). done.
    + apply list_elem_of_fmap in Ht as (kind & -> & Hkind). apply H47.
      apply get_col_is_Some.
      pose proof (event_stage_col _ _ _ _ _ _ _ _ _ _ _ Hst kind Hkind) as Hev.
      destruct (col_mapping (column_names df) !! PyStr.lower kind).
      * destruct Hev as (va & flags & _ & _ & Hfl). by eexists.
      * by eexists.
Qed.

(** X4, on the readings out of order. *)
Lemma X4_columns_of_shuffled_frame :
  (exists extra, column_names shuffled_out = column_names shuffled_frame ++ extra /\
     forall x, x ∈ extra -> x ∈ insert_columns) /\
  (forall t, t ∈ temporal_columns ++ (event_name <$> boolean_columns) ->
     t ∈ column_names shuffled_out).
Proof.
  apply (X4_raw_columns_are_kept (H := digits_text) shuffled_frame shuffled_out).
  vm_compute. reflexivity.
Defined.



Example row_order_bare_frame :
  row_order (H := digits_text) [Time (hour_ns 2); Str "n/a"; Time (hour_ns 1)]
  = [2%nat; 0%nat].
Proof. vm_compute. reflexivity. Qed.



(** ** The coerced columns *)



Example humidity_of_shuffled_frame :
  get_col "humidity" shuffled_out = Some (Float <$> [50; 70; 50; 70]%Q).
Proof. vm_compute. reflexivity. Qed.



Example dew_point_of_shuffled_frame :
  get_col "dew_point" shuffled_out = Some (Float <$> [6; 8; 4; 6]%Q).
Proof. vm_compute. reflexivity. Qed.





Example conditions_of_shuffled_frame :
  get_col "weather_condition" shuffled_out
  = Some [PyNone; Str "Fog"; Str "Haze"; PyNone].
Proof. vm_compute. reflexivity. Qed.

(** ** The store *)

(** X11: a call of [store_data] that returns leaves every earlier row
    of the table as it was and adds one row for each row of the frame, in
    the order of the frame, each with the 26 columns of the [INSERT] in its
    order; the record count grows by the number of rows of the frame. *)
Theorem X11_store_appends_one_row_per_row `{PyText} (table table' : list stored_row)
    (df : DataFrame) :
  store_data table df = inr table' ->
  exists rows, table' = table ++ rows /\
    length rows = nrows df /\
    Forall (fun row => row.*1 = insert_columns) rows /\
    get_record_count table' = (get_record_count table + nrows df)%nat.
Proof.
  intros (records & rows & -> & Hrec & Hrows)%store_data_inr.
  assert (Hlen : length rows = nrows df).
  { rewrite <- (Forall2_length _ _ _ Hrows), <- (Forall2_length _ _ _ Hrec).
    apply length_seq. }
  exists rows. split_and!; [done|done| |].
  - apply Forall_forall. intros row Hrow.
    destruct (Forall2_right_elem _ _ _ _ Hrows Hrow) as (r & _ & Hins).
    by apply keyed_mapM_keys in Hins.
  - unfold get_record_count. rewrite length_app. lia.
Qed.

(** X11, on the frame with three columns. *)
Lemma X11_store_appends_sparse_frame :
  exists rows, sparse_stored = [] ++ rows /\
    length rows = nrows sparse_frame /\
    Forall (fun row => row.*1 = insert_columns) rows /\
    get_record_count sparse_stored = (get_record_count [] + nrows sparse_frame)%nat.
Proof.
  apply (X11_store_appends_one_row_per_row (H := digits_text) [] sparse_stored sparse_frame).
  vm_compute. reflexivity.
Defined.



Example second_row_of_sparse_frame :
  (fun k => assoc_get k (default [] (sparse_stored !! 1%nat)))
    <$> ["datetime_utc"; "temperature"; "rain_event"; "fog_event"]
  = [Some (SText "1970-01-01T02:00:00"); Some SNull; Some (SInteger 0);
     Some (SInteger 0)].
Proof. vm_compute. reflexivity. Qed.

(** ** From the file to the table *)



Example timestamps_of_shuffled_frame :
  assoc_get "datetime_utc"
    <$> weather_data
          (process_and_store_data_file (H := digits_text) empty_system shuffled_frame).1
  = [Some (SText "1970-01-01T01:00:00"); Some (SText "1970-01-01T02:00:00");
     Some (SText "1970-01-01T03:00:00"); Some (SText "1970-01-01T04:00:00")].
Proof. vm_compute. reflexivity. Qed.

(** X14: nothing keeps a file from being stored again.  When a file has
    been processed and stored, processing it once more returns the same
    summary and adds the same rows again, so the record count grows by the
    number of records of the summary each time. *)
Theorem X14_processing_a_file_twice_stores_it_twice `{PyText}
    (sys sys1 : WeatherSystem) (df : DataFrame) (s1 : Summary) :
  process_and_store_data_file sys df = (sys1, inr s1) ->
  exists rows,
    weather_data sys1 = weather_data sys ++ rows /\
    length rows = total_records s1 /\
    process_and_store_data_file sys1 df
    = (mkSystem (processed_data sys1) (weather_data sys ++ rows ++ rows), inr s1) /\
    get_record_count (weather_data sys ++ rows ++ rows)
    = (get_record_count (weather_data sys) + 2 * total_records s1)%nat.
Proof.
  unfold process_and_store_data_file.
  destruct (clean_and_transform_data df) as [e|out] eqn:Hrun; [done|]. simpl.
  destruct (store_data (weather_data sys) out) as [e|table'] eqn:Hstore; [done|].
  intros [= <- <-]. simpl.
  pose proof Hstore as Hstore'.
  apply store_data_inr in Hstore' as (records & rows & -> & Hrec & Hrows).
  assert (Hlen : length rows = nrows out).
  { rewrite <- (Forall2_length _ _ _ Hrows), <- (Forall2_length _ _ _ Hrec).
    apply length_seq. }
  exists rows. split_and!; [done|done| |].
  - rewrite (store_data_rows _ _ _ (weather_data sys ++ rows) Hstore).
    by rewrite <- app_assoc.
  - unfold get_record_count. rewrite !length_app. lia.
Qed.

(** X14, on the readings out of order. *)
Lemma X14_shuffled_frame_twice :
  exists rows,
    weather_data shuffled_system = weather_data empty_system ++ rows /\
    length rows = total_records (get_data_summary shuffled_out) /\
    process_and_store_data_file (H := digits_text) shuffled_system shuffled_frame
    = (mkSystem (processed_data shuffled_system)
         (weather_data empty_system ++ rows ++ rows),
       inr (get_data_summary shuffled_out)) /\
    get_record_count (weather_data empty_system ++ rows ++ rows)
    = (get_record_count (weather_data empty_system)
       + 2 * total_records (get_data_summary shuffled_out))%nat.
Proof.
  apply (X14_processing_a_file_twice_stores_it_twice (H := digits_text) empty_system
           shuffled_system shuffled_frame (get_data_summary shuffled_out)).
  vm_compute. reflexivity.
Defined.

(** ** The query service *)

(** X15: the list of available years is in strictly ascending order, so
    no year is listed twice; it holds no NULL; every entry is the year of a
    row of the table, and every year that a row has is listed. *)
Theorem X15_available_years_are_ascending_and_complete (table : list stored_row) :
  StronglySorted Sql.lt (WeatherAPI.get_available_years table) /\
  (forall y, y ∈ WeatherAPI.get_available_years table ->
     y <> SNull /\ exists r, r ∈ table /\ Sql.field "year" r = y) /\
  (forall r, r ∈ table -> Sql.field "year" r <> SNull ->
     exists y, y ∈ WeatherAPI.get_available_years table /\
       Sql.le y (Sql.field "year" r) /\ Sql.le (Sql.field "year" r) y).
Proof. apply available_years_lists. Qed.

Example available_years_of_years_table :
  WeatherAPI.get_available_years years_table = [SInteger 2009; SInteger 2011].
Proof. vm_compute. reflexivity. Qed.

(** X16: from the file to the list of years.  When a file is processed
    and stored into an empty table, the years that the query service lists
    are integers in strictly ascending order, and they are exactly the
    calendar years of the timestamps of the file that parse. *)
Theorem X16_available_years_of_a_stored_file `{PyText} (df out : DataFrame)
    (rows : list stored_row) (c : string) (raw : list cell) :
  clean_and_transform_data df = inr out ->
  store_data [] out = inr rows ->
  find_datetime_col (column_names df) = Some c ->
  get_col c df = Some raw ->
  exists years : list Z,
    WeatherAPI.get_available_years rows = SInteger <$> years /\
    StronglySorted Z.lt years /\
    forall z, z ∈ years <-> exists t, t ∈ valid_times raw /\ Calendar.year_of t = z.
Proof.
  intros Hrun Hstore Hf Hg.
  destruct (temporal_out_cols df out Hrun) as (ts & Hdt & Hy & _).
  apply clean_and_transform_data_inr in Hrun
    as (c' & raw' & df1 & df2 & df3 & df4 & df5 & df6 & df7 & Hst).
  assert (c' = c) as -> by (destruct Hst; congruence).
  assert (raw' = raw) as -> by (destruct Hst; congruence).
  assert (Hperm : ts ≡ₚ valid_times raw).
  { destruct (sorted_times (valid_times raw)) as (ts' & Hts & Hperm & _).
    rewrite (run_out _ _ _ _ _ _ _ _ _ _ _ Hst),
      (run_dt7 _ _ _ _ _ _ _ _ _ _ _ Hst) in Hdt. simpl in Hdt.
    rewrite Hts in Hdt. injection Hdt as Heq.
    assert (ts' = ts) as <-; [|done].
    assert (Hinj : Inj (=) (=) Time) by (by intros ?? [= ->]).
    by apply (inj (fmap Time)) in Heq. }
  assert (Hn : nrows out = length ts).
  { by rewrite (run_nrows _ _ _ _ _ _ _ _ _ _ _ Hst), Hperm. }
  assert (Hlen : length rows = nrows out).
  { apply store_data_inr in Hstore as (records & rows' & Heq & Hrec & Hrows).
    simpl in Heq. subst rows'.
    rewrite <- (Forall2_length _ _ _ Hrows), <- (Forall2_length _ _ _ Hrec).
    apply length_seq. }
  assert (Hrows : forall row, row ∈ rows ->
            exists t, t ∈ ts /\ Sql.field "year" row = SInteger (Calendar.year_of t)).
  { intros row [i Hi]%list_elem_of_lookup.
    destruct (stored_year [] out rows ts i row Hy Hn Hstore Hi) as (t & Ht & Hfield).
    exists t. split; [by eapply list_elem_of_lookup_2|done]. }
  destruct (available_years_lists rows) as (Hsorted & Hin & Hcov).
  set (ys := WeatherAPI.get_available_years rows) in *.
  assert (Hint : forall y, y ∈ ys ->
            exists t, t ∈ ts /\ y = SInteger (Calendar.year_of t)).
  { intros y (_ & row & Hrow & <-)%Hin. by apply Hrows. }
  destruct (integers_only ys) as (years & Hyears).
  { intros y (t & _ & ->)%Hint. by eexists. }
  exists years. split_and!; [done| |].
  - rewrite Hyears in Hsorted. by apply integers_ascending.
  - intros z. split.
    + intros Hz.
      destruct (Hint (SInteger z)) as (t & Ht & [= ->]).
      { rewrite Hyears. apply list_elem_of_fmap. by exists z. }
      exists t. by rewrite <- Hperm.
    + intros (t & Ht & <-). rewrite <- Hperm in Ht.
      apply list_elem_of_lookup in Ht as [i Hi].
      destruct (lookup_lt_is_Some_2 rows i) as [row Hrow].
      { apply lookup_lt_Some in Hi. lia. }
      destruct (stored_year [] out rows ts i row Hy Hn Hstore Hrow)
        as (t' & Ht' & Hfield).
      rewrite Hi in Ht'. injection Ht' as <-.
      destruct (Hcov row) as (y & Hy' & Hle1 & Hle2);
        [by eapply list_elem_of_lookup_2|by rewrite Hfield|].
      destruct (Hint y Hy') as (t2 & _ & ->).
      rewrite Hfield in Hle1, Hle2.
      unfold Sql.le, Sql.leb, Sql.number in Hle1, Hle2. simpl in Hle1, Hle2.
      apply Is_true_true, Qle_bool_iff in Hle1, Hle2.
      rewrite <- Zle_Qle in Hle1, Hle2.
      rewrite Hyears in Hy'. apply list_elem_of_fmap in Hy' as (z & [= Hz] & Hin').
      by replace (Calendar.year_of t) with z by lia.
Qed.

(** X16, on the readings out of order. *)
Lemma X16_available_years_of_shuffled_frame :
  exists years : list Z,
    WeatherAPI.get_available_years shuffled_rows = SInteger <$> years /\
    StronglySorted Z.lt years /\
    forall z, z ∈ years <->
      exists t, t ∈ valid_times (H := digits_text) (Time <$> (hour_ns <$> [3; 1; 4; 2])) /\
        Calendar.year_of t = z.
Proof.
  apply (X16_available_years_of_a_stored_file (H := digits_text) shuffled_frame
           shuffled_out shuffled_rows "Date Time").
  - vm_compute. reflexivity.
  - vm_compute. reflexivity.
  - vm_compute. reflexivity.
  - vm_compute. reflexivity.
Defined.

Example years_of_shuffled_frame :
  WeatherAPI.get_available_years shuffled_rows = [SInteger 1970].
Proof. vm_compute. reflexivity. Qed.

(** X17: the summary of the query service counts every row of the
    table; none of its three availability counts exceeds the total; the
    year range is NULL on both sides when no row has a year, and otherwise
    its two ends are years of rows of the table and every year of a row
    lies between them. *)
Theorem X17_data_summary_of_the_table (table : list stored_row) :
  let s := WeatherAPI.get_data_summary table in
  WeatherAPI.total_records s = get_record_count table /\
  (WeatherAPI.temperature_records s <= WeatherAPI.total_records s)%nat /\
  (WeatherAPI.humidity_records s <= WeatherAPI.total_records s)%nat /\
  (WeatherAPI.pressure_records s <= WeatherAPI.total_records s)%nat /\
  ((forall r, r ∈ table -> Sql.field "year" r = SNull) ->
     WeatherAPI.year_start s = SNull /\ WeatherAPI.year_end s = SNull) /\
  (forall r, r ∈ table -> Sql.field "year" r <> SNull ->
     Sql.le (WeatherAPI.year_start s) (Sql.field "year" r) /\
     Sql.le (Sql.field "year" r) (WeatherAPI.year_end s) /\
     (exists r1, r1 ∈ table /\ Sql.field "year" r1 = WeatherAPI.year_start s) /\
     (exists r2, r2 ∈ table /\ Sql.field "year" r2 = WeatherAPI.year_end s)).
Proof.
  intros s. unfold s, WeatherAPI.get_data_summary. simpl.
  set (years := filter (fun v => Sql.not_null v = true) (Sql.field "year" <$> table)).
  assert (Hall : Forall (fun v => Sql.not_null v = true) years).
  { apply Forall_forall. by intros v [? _]%list_elem_of_filter. }
  split_and!; [done|apply count_not_null_le..| |].
  - intros Hnull.
    assert (Hnil : years = []).
    { apply filter_none, Forall_forall.
      intros v (r & -> & Hr)%list_elem_of_fmap. by rewrite (Hnull r Hr). }
    by rewrite Hnil.
  - intros r Hr Hn.
    assert (Hin : Sql.field "year" r ∈ years).
    { apply list_elem_of_filter. split; [by apply not_null_spec|].
      apply list_elem_of_fmap. by exists r. }
    assert (Hne : years <> []) by (intros Hnil; rewrite Hnil in Hin; by apply elem_of_nil in Hin).
    destruct (sql_min_of_spec years Hall Hne) as [Hmin Hle].
    destruct (sql_max_of_spec years Hall Hne) as [Hmax Hge].
    split_and!; [by apply Hle|by apply Hge| |].
    + apply list_elem_of_filter in Hmin as [_ Hmin].
      apply list_elem_of_fmap in Hmin as (r1 & Heq & Hr1). by exists r1.
    + apply list_elem_of_filter in Hmax as [_ Hmax].
      apply list_elem_of_fmap in Hmax as (r2 & Heq & Hr2). by exists r2.
Qed.

Example data_summary_of_years_table :
  WeatherAPI.get_data_summary years_table
  = WeatherAPI.mkDataSummary 4 (SInteger 2009) (SInteger 2011) 2 0 0.
Proof. vm_compute. reflexivity. Qed.

(** X18: a store that returns adds to the counts of the query service
    what the summary of the processor reports for the frame: the total
    grows by the number of records, and the availability of temperature,
    humidity and pressure by the number of valid cells of the column, by
    nothing when the frame lacks the column; with the missing values that
    the processor counts for a column they make up its records. *)
Theorem X18_store_adds_to_the_counts `{PyText} (table table' : list stored_row)
    (df : DataFrame) :
  wf_df df ->
  store_data table df = inr table' ->
  let s := WeatherAPI.get_data_summary table in
  let s' := WeatherAPI.get_data_summary table' in
  WeatherAPI.total_records s'
  = (WeatherAPI.total_records s + total_records (get_data_summary df))%nat /\
  WeatherAPI.temperature_records s'
  = (WeatherAPI.temperature_records s + present "temperature" df)%nat /\
  WeatherAPI.humidity_records s'
  = (WeatherAPI.humidity_records s + present "humidity" df)%nat /\
  WeatherAPI.pressure_records s'
  = (WeatherAPI.pressure_records s + present "pressure" df)%nat /\
  (forall k m, assoc_get k (missing_values (get_data_summary df)) = Some m ->
     (present k df + m = total_records (get_data_summary df))%nat).
Proof.
  intros Hwf Hstore s s'.
  pose proof Hstore as Hstore'.
  apply store_data_inr in Hstore' as (records & rows & -> & Hrec & Hrows).
  assert (Hlen : length rows = nrows df).
  { rewrite <- (Forall2_length _ _ _ Hrows), <- (Forall2_length _ _ _ Hrec).
    apply length_seq. }
  unfold s, s'. simpl. split_and!.
  - rewrite length_app. lia.
  - rewrite count_not_null_app. f_equal.
    apply (stored_not_null_count table); [done|done|in_list].
  - rewrite count_not_null_app. f_equal.
    apply (stored_not_null_count table); [done|done|in_list].
  - rewrite count_not_null_app. f_equal.
    apply (stored_not_null_count table); [done|done|in_list].
  - intros k m Hm. unfold get_col, present in *.
    rewrite assoc_get_fmap in Hm. unfold get_col.
    destruct (assoc_get k (columns df)) as [v|] eqn:Hv; [|done].
    simpl in Hm. injection Hm as <-.
    rewrite <- (wf_get_col df k v Hwf Hv). pose proof (count_na_valid v). lia.
Qed.

(** X18, on the frame with three columns. *)
Lemma X18_counts_of_sparse_frame :
  let s := WeatherAPI.get_data_summary [] in
  let s' := WeatherAPI.get_data_summary sparse_stored in
  WeatherAPI.total_records s'
  = (WeatherAPI.total_records s + total_records (get_data_summary sparse_frame))%nat /\
  WeatherAPI.temperature_records s'
  = (WeatherAPI.temperature_records s + present "temperature" sparse_frame)%nat /\
  WeatherAPI.humidity_records s'
  = (WeatherAPI.humidity_records s + present "humidity" sparse_frame)%nat /\
  WeatherAPI.pressure_records s'
  = (WeatherAPI.pressure_records s + present "pressure" sparse_frame)%nat /\
  (forall k m,
     assoc_get k (missing_values (get_data_summary sparse_frame)) = Some m ->
     (present k sparse_frame + m = total_records (get_data_summary sparse_frame))%nat).
Proof.
  apply (X18_store_adds_to_the_counts (H := digits_text) [] sparse_stored sparse_frame).
  - repeat constructor.
  - vm_compute. reflexivity.
Defined.

(** X19: the events summary builds its [WHERE] clause from the filters
    that are given, and a year or a month of 0 counts as not given: the
    clause has one placeholder for each parameter.  When a file is
    processed and stored into an empty table, the total that the summary
    reports is the number of timestamps of the file that parse and lie in
    the year and the month asked for. *)
Theorem X19_events_summary_counts_the_period `{PyText} (df out : DataFrame)
    (rows : list stored_row) (c : string) (raw : list cell) (year month : option Z) :
  clean_and_transform_data df = inr out ->
  store_data [] out = inr rows ->
  find_datetime_col (column_names df) = Some c ->
  get_col c df = Some raw ->
  WeatherAPI.events_total_records rows year month
  = length (filter (fun t => in_period year month t = true) (valid_times raw)) /\
  WeatherAPI.where_clause (WeatherAPI.events_conditions year month).1
  = match given year, given month with
    | None, None => ""
    | Some _, None => "WHERE year = ?"
    | None, Some _ => "WHERE month = ?"
    | Some _, Some _ => "WHERE year = ? AND month = ?"
    end /\
  (WeatherAPI.events_conditions year month).2
  = from_option (fun y => [y]) [] (given year)
    ++ from_option (fun m => [m]) [] (given month).
Proof.
  intros Hrun Hstore Hf Hg. split_and!.
  2:{ rewrite events_conditions_given. by destruct (given year), (given month). }
  2:{ rewrite events_conditions_given. by destruct (given year), (given month). }
  destruct (temporal_out_cols df out Hrun) as (ts & Hdt & Hy & Hm & _).
  apply clean_and_transform_data_inr in Hrun
    as (c' & raw' & df1 & df2 & df3 & df4 & df5 & df6 & df7 & Hst).
  assert (c' = c) as -> by (destruct Hst; congruence).
  assert (raw' = raw) as -> by (destruct Hst; congruence).
  assert (Hperm : ts ≡ₚ valid_times raw).
  { destruct (sorted_times (valid_times raw)) as (ts' & Hts & Hperm & _).
    rewrite (run_out _ _ _ _ _ _ _ _ _ _ _ Hst),
      (run_dt7 _ _ _ _ _ _ _ _ _ _ _ Hst) in Hdt. simpl in Hdt.
    rewrite Hts in Hdt. injection Hdt as Heq.
    assert (ts' = ts) as <-; [|done].
    assert (Hinj : Inj (=) (=) Time) by (by intros ?? [= ->]).
    by apply (inj (fmap Time)) in Heq. }
  assert (Hn : nrows out = length ts).
  { by rewrite (run_nrows _ _ _ _ _ _ _ _ _ _ _ Hst), Hperm. }
  assert (Hlen : length rows = nrows out).
  { apply store_data_inr in Hstore as (records & rows' & Heq & Hrec & Hrows).
    simpl in Heq. subst rows'.
    rewrite <- (Forall2_length _ _ _ Hrows), <- (Forall2_length _ _ _ Hrec).
    apply length_seq. }
  unfold WeatherAPI.events_total_records. rewrite <- Hperm.
  apply (filter_length_Forall2
    (WeatherAPI.selected (WeatherAPI.events_conditions year month))
    (in_period year month)).
  apply Forall2_same_length_lookup_2; [lia|].
  intros i row t Hrow Ht.
  destruct (stored_int [] out rows ts "year" Calendar.year_of i row)
    as (t1 & Ht1 & Hgy); [in_list|done..|].
  destruct (stored_int [] out rows ts "month" Calendar.month_of i row)
    as (t2 & Ht2 & Hgm); [in_list|done..|].
  rewrite Ht in Ht1, Ht2. injection Ht1 as <-. injection Ht2 as <-.
  by apply selected_in_period.
Qed.

(** X19, on the readings out of order, for the year 1970 and no
    month. *)
Lemma X19_events_of_shuffled_frame :
  WeatherAPI.events_total_records shuffled_rows (Some 1970) (Some 0)
  = length (filter (fun t => in_period (Some 1970) (Some 0) t = true)
              (valid_times (H := digits_text) (Time <$> (hour_ns <$> [3; 1; 4; 2])))) /\
  WeatherAPI.where_clause (WeatherAPI.events_conditions (Some 1970) (Some 0)).1
  = match given (Some 1970), given (Some 0) with
    | None, None => ""
    | Some _, None => "WHERE year = ?"
    | None, Some _ => "WHERE month = ?"
    | Some _, Some _ => "WHERE year = ? AND month = ?"
    end /\
  (WeatherAPI.events_conditions (Some 1970) (Some 0)).2
  = from_option (fun y => [y]) [] (given (Some 1970))
    ++ from_option (fun m => [m]) [] (given (Some 0)).
Proof.
  apply (X19_events_summary_counts_the_period (H := digits_text) shuffled_frame
           shuffled_out shuffled_rows "Date Time").
  - vm_compute. reflexivity.
  - vm_compute. reflexivity.
  - vm_compute. reflexivity.
  - vm_compute. reflexivity.
Defined.

Example events_total_of_shuffled_frame :
  (fun ym => WeatherAPI.events_total_records shuffled_rows ym.1 ym.2)
    <$> [(None, None); (Some 1970, None); (Some 0, Some 1); (Some 1971, None);
         (Some 1970, Some 2)]
  = [4; 4; 4; 0; 0]%nat.
Proof. vm_compute. reflexivity. Qed.




Example january_of_shuffled_frame :
  (fun my => Sql.field "datetime_utc"
               <$> WeatherAPI.get_weather_by_month shuffled_rows my.1 my.2)
    <$> [(1, None); (1, Some 1970); (1, Some 1971); (2, None)]
  = [SText <$> ["1970-01-01T01:00:00"; "1970-01-01T02:00:00";
                "1970-01-01T03:00:00"; "1970-01-01T04:00:00"];
     SText <$> ["1970-01-01T01:00:00"; "1970-01-01T02:00:00";
                "1970-01-01T03:00:00"; "1970-01-01T04:00:00"];
     []; []].
Proof. vm_compute. reflexivity. Qed.



Example dates_of_shuffled_frame :
  (fun d => Sql.field "datetime_utc"
              <$> WeatherAPI.get_weather_by_date date_prefix shuffled_rows d)
    <$> ["1970-01-01"; "1970-01-02"; "1970-1-1"]
  = [SText <$> ["1970-01-01T01:00:00"; "1970-01-01T02:00:00";
                "1970-01-01T03:00:00"; "1970-01-01T04:00:00"];
     []; []].
Proof. vm_compute. reflexivity. Qed.
